(** * Rule 111: OPEN DATASET without MODE / ENCODING

    A shallow embedding of [app/app.py] and the properties of its
    detection engine.

    - Text is a list of characters; a character is a Unicode code point,
      a number ([N]).  The character classes of Python's [re] module on
      [str] patterns ([\s], [\S], [\w], [\b]) are written out over all
      code points, [\w] from the table of Unicode 14.0, and IGNORECASE as
      it acts on the characters of the four patterns.
    - The four compiled patterns are terms of a small regular-expression
      syntax, run by a backtracking matcher (greedy repetition, ordered
      alternation) written in continuation-passing style, with [search]
      and [finditer] on top of it.
    - Offsets into a text are [nat]; Python integers that travel in the
      models (line numbers) are [Z]; an [Optional] field is an [option];
      [-1] as the answer of [find] and [rfind] is [None].
    - [scan_unit] is given twice: on values, and on objects in a store,
      where the input is a reference and the result a newly allocated
      object. *)

From Stdlib Require Import ZArith Ascii String.
From stdpp Require Import base option list sorting gmap strings.

Open Scope Z_scope.
Open Scope nat_scope.
Open Scope list_scope.

(** ** Characters and strings *)

(** A character is its code point, U+0000 to U+10FFFF; the numbers above,
    which no string holds, are in no character class. *)
Abbreviation char := N (only parsing).
Abbreviation str := (list N).

Definition chr (a : ascii) : char := N_of_ascii a.

(** A string literal of the source (all of them are ASCII). *)
Definition lit (s : string) : str := chr <$> list_ascii_of_string s.

(** A set of code points, as a list of ranges with both ends included. *)
Definition in_ranges (rs : list (N * N)) (c : char) : bool :=
  List.existsb (fun r => (N.leb (fst r) c && N.leb c (snd r))%bool) rs.

Definition NL : char := 10%N.
Definition DOT : char := 46%N.
Definition BACKSLASH : char := 92%N.
Definition LETTER_N : char := 110%N.

(** [\s] on a [str] pattern: the white space of [str.isspace]: TAB..CR,
    FS..US, SPACE, NEL, NBSP, OGHAM SPACE MARK, EN QUAD..HAIR SPACE, LINE
    and PARAGRAPH SEPARATOR, NARROW NBSP, MEDIUM MATHEMATICAL SPACE and
    IDEOGRAPHIC SPACE. *)
Definition space_ranges : list (N * N) :=
  [(9, 13); (28, 32); (133, 133); (160, 160); (5760, 5760); (8192, 8202);
   (8232, 8233); (8239, 8239); (8287, 8287); (12288, 12288)]%N.

Definition is_space (c : char) : bool := in_ranges space_ranges c.

(** [\S]. *)
Definition non_space (c : char) : bool := negb (is_space c).

(** [\w] on a [str] pattern: the underscore and the alphanumeric code
    points (letter, decimal, digit or numeric), here as of Unicode 14.0. *)
Definition word_ranges : list (N * N) :=
  [(48, 57); (65, 90); (95, 95); (97, 122); (170, 170); (178, 179);
   (181, 181); (185, 186); (188, 190); (192, 214); (216, 246); (248, 705);
   (710, 721); (736, 740); (748, 748); (750, 750); (880, 884); (886, 887);
   (890, 893); (895, 895); (902, 902); (904, 906); (908, 908); (910, 929);
   (931, 1013); (1015, 1153); (1162, 1327); (1329, 1366); (1369, 1369);
   (1376, 1416); (1488, 1514); (1519, 1522); (1568, 1610); (1632, 1641);
   (1646, 1647); (1649, 1747); (1749, 1749); (1765, 1766); (1774, 1788);
   (1791, 1791); (1808, 1808); (1810, 1839); (1869, 1957); (1969, 1969);
   (1984, 2026); (2036, 2037); (2042, 2042); (2048, 2069); (2074, 2074);
   (2084, 2084); (2088, 2088); (2112, 2136); (2144, 2154); (2160, 2183);
   (2185, 2190); (2208, 2249); (2308, 2361); (2365, 2365); (2384, 2384);
   (2392, 2401); (2406, 2415); (2417, 2432); (2437, 2444); (2447, 2448);
   (2451, 2472); (2474, 2480); (2482, 2482); (2486, 2489); (2493, 2493);
   (2510, 2510); (2524, 2525); (2527, 2529); (2534, 2545); (2548, 2553);
   (2556, 2556); (2565, 2570); (2575, 2576); (2579, 2600); (2602, 2608);
   (2610, 2611); (2613, 2614); (2616, 2617); (2649, 2652); (2654, 2654);
   (2662, 2671); (2674, 2676); (2693, 2701); (2703, 2705); (2707, 2728);
   (2730, 2736); (2738, 2739); (2741, 2745); (2749, 2749); (2768, 2768);
   (2784, 2785); (2790, 2799); (2809, 2809); (2821, 2828); (2831, 2832);
   (2835, 2856); (2858, 2864); (2866, 2867); (2869, 2873); (2877, 2877);
   (2908, 2909); (2911, 2913); (2918, 2927); (2929, 2935); (2947, 2947);
   (2949, 2954); (2958, 2960); (2962, 2965); (2969, 2970); (2972, 2972);
   (2974, 2975); (2979, 2980); (2984, 2986); (2990, 3001); (3024, 3024);
   (3046, 3058); (3077, 3084); (3086, 3088); (3090, 3112); (3114, 3129);
   (3133, 3133); (3160, 3162); (3165, 3165); (3168, 3169); (3174, 3183);
   (3192, 3198); (3200, 3200); (3205, 3212); (3214, 3216); (3218, 3240);
   (3242, 3251); (3253, 3257); (3261, 3261); (3293, 3294); (3296, 3297);
   (3302, 3311); (3313, 3314); (3332, 3340); (3342, 3344); (3346, 3386);
   (3389, 3389); (3406, 3406); (3412, 3414); (3416, 3425); (3430, 3448);
   (3450, 3455); (3461, 3478); (3482, 3505); (3507, 3515); (3517, 3517);
   (3520, 3526); (3558, 3567); (3585, 3632); (3634, 3635); (3648, 3654);
   (3664, 3673); (3713, 3714); (3716, 3716); (3718, 3722); (3724, 3747);
   (3749, 3749); (3751, 3760); (3762, 3763); (3773, 3773); (3776, 3780);
   (3782, 3782); (3792, 3801); (3804, 3807); (3840, 3840); (3872, 3891);
   (3904, 3911); (3913, 3948); (3976, 3980); (4096, 4138); (4159, 4169);
   (4176, 4181); (4186, 4189); (4193, 4193); (4197, 4198); (4206, 4208);
   (4213, 4225); (4238, 4238); (4240, 4249); (4256, 4293); (4295, 4295);
   (4301, 4301); (4304, 4346); (4348, 4680); (4682, 4685); (4688, 4694);
   (4696, 4696); (4698, 4701); (4704, 4744); (4746, 4749); (4752, 4784);
   (4786, 4789); (4792, 4798); (4800, 4800); (4802, 4805); (4808, 4822);
   (4824, 4880); (4882, 4885); (4888, 4954); (4969, 4988); (4992, 5007);
   (5024, 5109); (5112, 5117); (5121, 5740); (5743, 5759); (5761, 5786);
   (5792, 5866); (5870, 5880); (5888, 5905); (5919, 5937); (5952, 5969);
   (5984, 5996); (5998, 6000); (6016, 6067); (6103, 6103); (6108, 6108);
   (6112, 6121); (6128, 6137); (6160, 6169); (6176, 6264); (6272, 6276);
   (6279, 6312); (6314, 6314); (6320, 6389); (6400, 6430); (6470, 6509);
   (6512, 6516); (6528, 6571); (6576, 6601); (6608, 6618); (6656, 6678);
   (6688, 6740); (6784, 6793); (6800, 6809); (6823, 6823); (6917, 6963);
   (6981, 6988); (6992, 7001); (7043, 7072); (7086, 7141); (7168, 7203);
   (7232, 7241); (7245, 7293); (7296, 7304); (7312, 7354); (7357, 7359);
   (7401, 7404); (7406, 7411); (7413, 7414); (7418, 7418); (7424, 7615);
   (7680, 7957); (7960, 7965); (7968, 8005); (8008, 8013); (8016, 8023);
   (8025, 8025); (8027, 8027); (8029, 8029); (8031, 8061); (8064, 8116);
   (8118, 8124); (8126, 8126); (8130, 8132); (8134, 8140); (8144, 8147);
   (8150, 8155); (8160, 8172); (8178, 8180); (8182, 8188); (8304, 8305);
   (8308, 8313); (8319, 8329); (8336, 8348); (8450, 8450); (8455, 8455);
   (8458, 8467); (8469, 8469); (8473, 8477); (8484, 8484); (8486, 8486);
   (8488, 8488); (8490, 8493); (8495, 8505); (8508, 8511); (8517, 8521);
   (8526, 8526); (8528, 8585); (9312, 9371); (9450, 9471); (10102, 10131);
   (11264, 11492); (11499, 11502); (11506, 11507); (11517, 11517);
   (11520, 11557); (11559, 11559); (11565, 11565); (11568, 11623);
   (11631, 11631); (11648, 11670); (11680, 11686); (11688, 11694);
   (11696, 11702); (11704, 11710); (11712, 11718); (11720, 11726);
   (11728, 11734); (11736, 11742); (11823, 11823); (12293, 12295);
   (12321, 12329); (12337, 12341); (12344, 12348); (12353, 12438);
   (12445, 12447); (12449, 12538); (12540, 12543); (12549, 12591);
   (12593, 12686); (12690, 12693); (12704, 12735); (12784, 12799);
   (12832, 12841); (12872, 12879); (12881, 12895); (12928, 12937);
   (12977, 12991); (13312, 19903); (19968, 42124); (42192, 42237);
   (42240, 42508); (42512, 42539); (42560, 42606); (42623, 42653);
   (42656, 42735); (42775, 42783); (42786, 42888); (42891, 42954);
   (42960, 42961); (42963, 42963); (42965, 42969); (42994, 43009);
   (43011, 43013); (43015, 43018); (43020, 43042); (43056, 43061);
   (43072, 43123); (43138, 43187); (43216, 43225); (43250, 43255);
   (43259, 43259); (43261, 43262); (43264, 43301); (43312, 43334);
   (43360, 43388); (43396, 43442); (43471, 43481); (43488, 43492);
   (43494, 43518); (43520, 43560); (43584, 43586); (43588, 43595);
   (43600, 43609); (43616, 43638); (43642, 43642); (43646, 43695);
   (43697, 43697); (43701, 43702); (43705, 43709); (43712, 43712);
   (43714, 43714); (43739, 43741); (43744, 43754); (43762, 43764);
   (43777, 43782); (43785, 43790); (43793, 43798); (43808, 43814);
   (43816, 43822); (43824, 43866); (43868, 43881); (43888, 44002);
   (44016, 44025); (44032, 55203); (55216, 55238); (55243, 55291);
   (63744, 64109); (64112, 64217); (64256, 64262); (64275, 64279);
   (64285, 64285); (64287, 64296); (64298, 64310); (64312, 64316);
   (64318, 64318); (64320, 64321); (64323, 64324); (64326, 64433);
   (64467, 64829); (64848, 64911); (64914, 64967); (65008, 65019);
   (65136, 65140); (65142, 65276); (65296, 65305); (65313, 65338);
   (65345, 65370); (65382, 65470); (65474, 65479); (65482, 65487);
   (65490, 65495); (65498, 65500); (65536, 65547); (65549, 65574);
   (65576, 65594); (65596, 65597); (65599, 65613); (65616, 65629);
   (65664, 65786); (65799, 65843); (65856, 65912); (65930, 65931);
   (66176, 66204); (66208, 66256); (66273, 66299); (66304, 66339);
   (66349, 66378); (66384, 66421); (66432, 66461); (66464, 66499);
   (66504, 66511); (66513, 66517); (66560, 66717); (66720, 66729);
   (66736, 66771); (66776, 66811); (66816, 66855); (66864, 66915);
   (66928, 66938); (66940, 66954); (66956, 66962); (66964, 66965);
   (66967, 66977); (66979, 66993); (66995, 67001); (67003, 67004);
   (67072, 67382); (67392, 67413); (67424, 67431); (67456, 67461);
   (67463, 67504); (67506, 67514); (67584, 67589); (67592, 67592);
   (67594, 67637); (67639, 67640); (67644, 67644); (67647, 67669);
   (67672, 67702); (67705, 67742); (67751, 67759); (67808, 67826);
   (67828, 67829); (67835, 67867); (67872, 67897); (67968, 68023);
   (68028, 68047); (68050, 68096); (68112, 68115); (68117, 68119);
   (68121, 68149); (68160, 68168); (68192, 68222); (68224, 68255);
   (68288, 68295); (68297, 68324); (68331, 68335); (68352, 68405);
   (68416, 68437); (68440, 68466); (68472, 68497); (68521, 68527);
   (68608, 68680); (68736, 68786); (68800, 68850); (68858, 68899);
   (68912, 68921); (69216, 69246); (69248, 69289); (69296, 69297);
   (69376, 69415); (69424, 69445); (69457, 69460); (69488, 69505);
   (69552, 69579); (69600, 69622); (69635, 69687); (69714, 69743);
   (69745, 69746); (69749, 69749); (69763, 69807); (69840, 69864);
   (69872, 69881); (69891, 69926); (69942, 69951); (69956, 69956);
   (69959, 69959); (69968, 70002); (70006, 70006); (70019, 70066);
   (70081, 70084); (70096, 70106); (70108, 70108); (70113, 70132);
   (70144, 70161); (70163, 70187); (70272, 70278); (70280, 70280);
   (70282, 70285); (70287, 70301); (70303, 70312); (70320, 70366);
   (70384, 70393); (70405, 70412); (70415, 70416); (70419, 70440);
   (70442, 70448); (70450, 70451); (70453, 70457); (70461, 70461);
   (70480, 70480); (70493, 70497); (70656, 70708); (70727, 70730);
   (70736, 70745); (70751, 70753); (70784, 70831); (70852, 70853);
   (70855, 70855); (70864, 70873); (71040, 71086); (71128, 71131);
   (71168, 71215); (71236, 71236); (71248, 71257); (71296, 71338);
   (71352, 71352); (71360, 71369); (71424, 71450); (71472, 71483);
   (71488, 71494); (71680, 71723); (71840, 71922); (71935, 71942);
   (71945, 71945); (71948, 71955); (71957, 71958); (71960, 71983);
   (71999, 71999); (72001, 72001); (72016, 72025); (72096, 72103);
   (72106, 72144); (72161, 72161); (72163, 72163); (72192, 72192);
   (72203, 72242); (72250, 72250); (72272, 72272); (72284, 72329);
   (72349, 72349); (72368, 72440); (72704, 72712); (72714, 72750);
   (72768, 72768); (72784, 72812); (72818, 72847); (72960, 72966);
   (72968, 72969); (72971, 73008); (73030, 73030); (73040, 73049);
   (73056, 73061); (73063, 73064); (73066, 73097); (73112, 73112);
   (73120, 73129); (73440, 73458); (73648, 73648); (73664, 73684);
   (73728, 74649); (74752, 74862); (74880, 75075); (77712, 77808);
   (77824, 78894); (82944, 83526); (92160, 92728); (92736, 92766);
   (92768, 92777); (92784, 92862); (92864, 92873); (92880, 92909);
   (92928, 92975); (92992, 92995); (93008, 93017); (93019, 93025);
   (93027, 93047); (93053, 93071); (93760, 93846); (93952, 94026);
   (94032, 94032); (94099, 94111); (94176, 94177); (94179, 94179);
   (94208, 100343); (100352, 101589); (101632, 101640); (110576, 110579);
   (110581, 110587); (110589, 110590); (110592, 110882); (110928, 110930);
   (110948, 110951); (110960, 111355); (113664, 113770); (113776, 113788);
   (113792, 113800); (113808, 113817); (119520, 119539); (119648, 119672);
   (119808, 119892); (119894, 119964); (119966, 119967); (119970, 119970);
   (119973, 119974); (119977, 119980); (119982, 119993); (119995, 119995);
   (119997, 120003); (120005, 120069); (120071, 120074); (120077, 120084);
   (120086, 120092); (120094, 120121); (120123, 120126); (120128, 120132);
   (120134, 120134); (120138, 120144); (120146, 120485); (120488, 120512);
   (120514, 120538); (120540, 120570); (120572, 120596); (120598, 120628);
   (120630, 120654); (120656, 120686); (120688, 120712); (120714, 120744);
   (120746, 120770); (120772, 120779); (120782, 120831); (122624, 122654);
   (123136, 123180); (123191, 123197); (123200, 123209); (123214, 123214);
   (123536, 123565); (123584, 123627); (123632, 123641); (124896, 124902);
   (124904, 124907); (124909, 124910); (124912, 124926); (124928, 125124);
   (125127, 125135); (125184, 125251); (125259, 125259); (125264, 125273);
   (126065, 126123); (126125, 126127); (126129, 126132); (126209, 126253);
   (126255, 126269); (126464, 126467); (126469, 126495); (126497, 126498);
   (126500, 126500); (126503, 126503); (126505, 126514); (126516, 126519);
   (126521, 126521); (126523, 126523); (126530, 126530); (126535, 126535);
   (126537, 126537); (126539, 126539); (126541, 126543); (126545, 126546);
   (126548, 126548); (126551, 126551); (126553, 126553); (126555, 126555);
   (126557, 126557); (126559, 126559); (126561, 126562); (126564, 126564);
   (126567, 126570); (126572, 126578); (126580, 126583); (126585, 126588);
   (126590, 126590); (126592, 126601); (126603, 126619); (126625, 126627);
   (126629, 126633); (126635, 126651); (127232, 127244); (130032, 130041);
   (131072, 173791); (173824, 177976); (177984, 178205); (178208, 183969);
   (183984, 191456); (194560, 195101); (196608, 201546)]%N.

Definition is_word (c : char) : bool := in_ranges word_ranges c.

(** Lower-casing, as IGNORECASE applies it before it compares a character
    with an ASCII character of a pattern.  The code points whose lower
    case is an ASCII letter are A..Z, U+0130 (to i) and U+212A (to k);
    U+0131 is taken for i and U+017F for s, which have the same upper
    case.  No other code point reaches an ASCII character, and they are
    left as they are. *)
Definition lower (c : char) : char :=
  if in_ranges [(65, 90)%N] c then (c + 32)%N
  else if in_ranges [(304, 305)%N] c then 105%N
  else if N.eqb c 383 then 115%N
  else if N.eqb c 8490 then 107%N
  else c.

(** The characters [lower] changes. *)
Definition lower_dom : list (N * N) :=
  [(65, 90); (304, 305); (383, 383); (8490, 8490)]%N.

Definition eq_ci (a c : char) : bool := N.eqb (lower a) (lower c).

(** [[^.]]. *)
Definition not_dot (c : char) : bool := negb (N.eqb c DOT).

(** ** The fragment of [re] the four patterns use *)

Inductive regex : Type :=
| Bnd                          (* \b *)
| Str (l : str)                (* literal characters, IGNORECASE *)
| Rep0 (p : char -> bool)      (* class*, greedy *)
| Rep1 (p : char -> bool)      (* class+, greedy *)
| Cat (r1 r2 : regex)          (* r1 r2 *)
| Alt (r1 r2 : regex).         (* r1|r2 *)

Infix "$$" := Cat (at level 60, right associativity).

(** The character before the current position ([None] at the start of
    the string) and the rest of the string decide [\b]. *)
Definition word_opt (o : option char) : bool :=
  match o with Some c => is_word c | None => false end.

Definition at_boundary (prev : option char) (s : str) : bool :=
  xorb (word_opt prev) (word_opt (head s)).

(** A continuation receives the character before the position reached
    and the remaining input; it answers the number of characters the rest
    of the match consumes. *)
Definition cont := option char -> str -> option nat.

Fixpoint run_str (l : str) (prev : option char) (s : str) (k : cont)
  : option nat :=
  match l with
  | [] => k prev s
  | a :: l' =>
      match s with
      | c :: s' =>
          if eq_ci a c then S <$> run_str l' (Some c) s' k else None
      | [] => None
      end
  end.

(** Greedy repetition: take the character if the class allows it, and
    give it back when the rest of the pattern fails. *)
Fixpoint run_rep (p : char -> bool) (prev : option char) (s : str) (k : cont)
  : option nat :=
  match s with
  | c :: s' =>
      if p c then
        match run_rep p (Some c) s' k with
        | Some n => Some (S n)
        | None => k prev s
        end
      else k prev s
  | [] => k prev s
  end.

Fixpoint run (r : regex) (prev : option char) (s : str) (k : cont)
  : option nat :=
  match r with
  | Bnd => if at_boundary prev s then k prev s else None
  | Str l => run_str l prev s k
  | Rep0 p => run_rep p prev s k
  | Rep1 p =>
      match s with
      | c :: s' => if p c then S <$> run_rep p (Some c) s' k else None
      | [] => None
      end
  | Cat r1 r2 => run r1 prev s (fun prev' s' => run r2 prev' s' k)
  | Alt r1 r2 =>
      match run r1 prev s k with
      | Some n => Some n
      | None => run r2 prev s k
      end
  end.

(** The length of the match of [r] that starts exactly here. *)
Definition match_at (r : regex) (prev : option char) (s : str) : option nat :=
  run r prev s (fun _ _ => Some 0).

(** [Pattern.search(s) is not None]. *)
Fixpoint search_from (r : regex) (prev : option char) (s : str) : bool :=
  match match_at r prev s with
  | Some _ => true
  | None =>
      match s with
      | c :: s' => search_from r (Some c) s'
      | [] => false
      end
  end.

Definition search (r : regex) (s : str) : bool := search_from r None s.

(** [Pattern.finditer(s)], as the list of [(m.start(), m.end())].
    [pos] is the offset of [s] in the scanned text; [skip] counts the
    characters of the last match still to be stepped over before the next
    attempt. *)
Fixpoint finditer_from (r : regex) (prev : option char) (s : str)
  (pos skip : nat) : list (nat * nat) :=
  match skip with
  | S skip' =>
      match s with
      | c :: s' => finditer_from r (Some c) s' (S pos) skip'
      | [] => []
      end
  | O =>
      match match_at r prev s with
      | Some n =>
          (pos, pos + n) ::
          match s with
          | c :: s' => finditer_from r (Some c) s' (S pos) (pred n)
          | [] => []
          end
      | None =>
          match s with
          | c :: s' => finditer_from r (Some c) s' (S pos) 0
          | [] => []
          end
      end
  end.

Definition finditer (r : regex) (s : str) : list (nat * nat) :=
  finditer_from r None s 0 0.

(** ** The patterns of the rule *)

(** [(?is)\bOPEN\s+DATASET\b[^.]*\.] *)
Definition STMT_RE : regex :=
  Bnd $$ Str (lit "OPEN") $$ Rep1 is_space $$ Str (lit "DATASET") $$ Bnd
      $$ Rep0 not_dot $$ Str (lit ".").

(** [(?i)\bIN\s+(TEXT|BINARY)\s+MODE\b] *)
Definition MODE_RE : regex :=
  Bnd $$ Str (lit "IN") $$ Rep1 is_space
      $$ Alt (Str (lit "TEXT")) (Str (lit "BINARY"))
      $$ Rep1 is_space $$ Str (lit "MODE") $$ Bnd.

(** [(?i)\bIN\s+TEXT\s+MODE\b] *)
Definition TEXT_MODE_RE : regex :=
  Bnd $$ Str (lit "IN") $$ Rep1 is_space $$ Str (lit "TEXT")
      $$ Rep1 is_space $$ Str (lit "MODE") $$ Bnd.

(** [(?i)\bENCODING\b\s+\S+] *)
Definition ENCODING_RE : regex :=
  Bnd $$ Str (lit "ENCODING") $$ Bnd $$ Rep1 is_space $$ Rep1 non_space.

(** ** Python string operations used by the rule *)

(** [s[a:b]] for offsets [0 <= a], [0 <= b]. *)
Definition slice (s : str) (a b : nat) : str := take (b - a) (drop a s).

(** [s.count(c)] for a one-character [c]. *)
Fixpoint count (c : char) (s : str) : nat :=
  match s with
  | [] => 0
  | x :: s' => if N.eqb x c then S (count c s') else count c s'
  end.

Fixpoint find_first (c : char) (s : str) (i : nat) : option nat :=
  match s with
  | [] => None
  | x :: s' => if N.eqb x c then Some i else find_first c s' (S i)
  end.

Fixpoint find_last (c : char) (s : str) (i : nat) (seen : option nat)
  : option nat :=
  match s with
  | [] => seen
  | x :: s' => find_last c s' (S i) (if N.eqb x c then Some i else seen)
  end.

(** [text.find(c, lo)]; [None] stands for the answer [-1]. *)
Definition find (c : char) (text : str) (lo : nat) : option nat :=
  find_first c (drop lo text) lo.

(** [text.rfind(c, lo, hi)]; [None] stands for the answer [-1]. *)
Definition rfind (c : char) (text : str) (lo hi : nat) : option nat :=
  find_last c (slice text lo hi) lo None.

(** [s.replace(c, by)] for a one-character [c]. *)
Fixpoint replace (c : char) (by_ : str) (s : str) : str :=
  match s with
  | [] => []
  | x :: s' => (if N.eqb x c then by_ else [x]) ++ replace c by_ s'
  end.

(** ** Models *)

Record Finding : Type := mkFinding {
  prog_name : option str;
  incl_name : option str;
  types : option str;
  blockname : option str;
  starting_line : option Z;
  ending_line : option Z;
  issues_type : option str;
  severity : option str;
  message : option str;
  suggestion : option str;
  snippet : option str
}.

Record Unit : Type := mkUnit {
  pgm_name : str;
  inc_name : str;
  type : str;
  name : option str;
  start_line : option Z;
  end_line : option Z;
  code : option str;
  findings : option (list Finding)
}.

(** ** Utility helpers *)

Definition get_line_snippet (text : str) (start end_ : nat) : str :=
  let line_start :=
    match rfind NL text 0 start with
    | None => 0
    | Some i => i + 1
    end in
  let line_end :=
    match find NL text end_ with
    | None => length text
    | Some j => j
    end in
  slice text line_start line_end.

(** ** Rule detection logic *)

(** [x or s] with [s] the empty string, and [x or 0]. *)
Definition or_empty (x : option str) : str :=
  match x with
  | Some (c :: s) => c :: s
  | _ => []
  end.

Definition or_zero (x : option Z) : Z :=
  match x with
  | Some n => if Z.eqb n 0 then 0%Z else n
  | None => 0%Z
  end.

Definition msg_no_mode : str :=
  lit "OPEN DATASET without MODE. Specify IN TEXT MODE or IN BINARY MODE and, for text, an explicit ENCODING.".

Definition sug_no_mode : str :=
  lit "OPEN DATASET lv_file FOR OUTPUT IN TEXT MODE ENCODING UTF-8."
  ++ [NL] ++ lit "* or *" ++ [NL]
  ++ lit "OPEN DATASET lv_file FOR INPUT IN BINARY MODE.".

Definition msg_no_encoding : str :=
  lit "OPEN DATASET in TEXT MODE without explicit ENCODING.".

Definition sug_no_encoding : str :=
  lit "Add ENCODING UTF-8 (or the required code page).".

(** One turn of the loop of [scan_unit] over the match [m], on the list
    [findings] accumulated so far. *)
Definition scan_stmt (unit : Unit) (src : str) (base_start : Z)
  (findings : list Finding) (m : nat * nat) : list Finding :=
  let stmt_start := fst m in
  let stmt_end := snd m in
  let stmt := slice src stmt_start stmt_end in
  let has_mode := search MODE_RE stmt in
  let is_text_mode := search TEXT_MODE_RE stmt in
  let has_encoding := search ENCODING_RE stmt in
  let line_in_block := Z.of_nat (count NL (take stmt_start src) + 1) in
  let snippet_line := get_line_snippet src stmt_start stmt_end in
  let snippet_line_count := Z.of_nat (count NL snippet_line + 1) in
  let starting_line_abs := (base_start + line_in_block)%Z in
  let ending_line_abs := (base_start + line_in_block + snippet_line_count)%Z in
  if negb has_mode then
    findings ++
      [ {| prog_name := Some (pgm_name unit);
           incl_name := Some (inc_name unit);
           types := Some (type unit);
           blockname := name unit;
           starting_line := Some starting_line_abs;
           ending_line := Some ending_line_abs;
           issues_type := Some (lit "OpenDatasetNoMode");
           severity := Some (lit "error");
           message := Some msg_no_mode;
           suggestion := Some sug_no_mode;
           snippet := Some (replace NL [BACKSLASH; LETTER_N] snippet_line) |} ]
  else if (is_text_mode && negb has_encoding)%bool then
    findings ++
      [ {| prog_name := Some (pgm_name unit);
           incl_name := Some (inc_name unit);
           types := Some (type unit);
           blockname := name unit;
           starting_line := Some starting_line_abs;
           ending_line := Some ending_line_abs;
           issues_type := Some (lit "OpenDatasetTextNoEncoding");
           severity := Some (lit "error");
           message := Some msg_no_encoding;
           suggestion := Some sug_no_encoding;
           snippet := Some (replace NL [BACKSLASH; LETTER_N] snippet_line) |} ]
  else findings.

(** The loop of [scan_unit]: the value of the local [findings] when the
    loop ends. *)
Definition scan_findings (unit : Unit) : list Finding :=
  let src := or_empty (code unit) in
  let base_start := or_zero (start_line unit) in
  fold_left (scan_stmt unit src base_start) (finditer STMT_RE src) [].

(** The constructor call on [unit.model_dump()]: a new unit with the same
    field values. *)
Definition model_copy (unit : Unit) : Unit :=
  {| pgm_name := pgm_name unit; inc_name := inc_name unit;
     type := type unit; name := name unit;
     start_line := start_line unit; end_line := end_line unit;
     code := code unit; findings := findings unit |}.

Definition set_findings (fs : list Finding) (unit : Unit) : Unit :=
  {| pgm_name := pgm_name unit; inc_name := inc_name unit;
     type := type unit; name := name unit;
     start_line := start_line unit; end_line := end_line unit;
     code := code unit; findings := Some fs |}.

(** [scan_unit] on values. *)
Definition scan_unit (unit : Unit) : Unit :=
  let findings := scan_findings unit in
  let out_unit := model_copy unit in
  set_findings findings out_unit.

(** *** [scan_unit] on objects

    Units are objects in a store and are passed by reference; the
    constructor call allocates, the attribute assignment updates the
    object it is applied to. *)

Abbreviation ref := nat (only parsing).
Abbreviation store := (gmap nat Unit) (only parsing).

Definition new_unit (h : store) (u : Unit) : ref * store :=
  let l := fresh (dom h) in (l, <[l := u]> h).

Definition scan_unit_ref (unit : ref) (h : store) : option (ref * store) :=
  u ← h !! unit;
  let findings := scan_findings u in
  let '(out_unit, h1) := new_unit h (model_copy u) in
  let h2 := alter (set_findings findings) out_unit h1 in
  Some (out_unit, h2).

(** ** Endpoints *)

(** [if res.findings:] *)
Definition truthy (x : option (list Finding)) : bool :=
  match x with
  | Some (_ :: _) => true
  | _ => false
  end.

Definition scan_rule111_array (units : list Unit) : list Unit :=
  fold_left
    (fun results u =>
       let res := scan_unit u in
       if truthy (findings res) then results ++ [res] else results)
    units [].

Definition scan_rule111_single (unit : Unit) : Unit := scan_unit unit.

(** ** Code points of a set, one by one *)

Fixpoint upto (lo : N) (n : nat) : list N :=
  match n with
  | O => []
  | S n' => lo :: upto (N.succ lo) n'
  end.

Definition enum (r : N * N) : list N :=
  upto (fst r) (N.to_nat (N.succ (snd r) - fst r)).

(** * What the patterns mean

    The meaning of a pattern, independent of the order in which the
    matcher tries things: [den r prev w rest] says that [r] matches the
    characters [w] when [prev] is the character before them and [rest]
    is what follows them. *)

Definition last_of (prev : option char) (w : str) : option char :=
  match last w with
  | Some c => Some c
  | None => prev
  end.

Definition all_of (p : char -> bool) (w : str) : Prop :=
  Forall (fun c => p c = true) w.

(** Equal up to case, as IGNORECASE has it for the letters of the
    patterns: A..Z as a..z, U+0130 and U+0131 as i, U+017F as s and U+212A
    as k. *)
Definition ci (l w : str) : Prop := lower <$> w = lower <$> l.

Fixpoint den (r : regex) (prev : option char) (w rest : str) : Prop :=
  match r with
  | Bnd => w = [] /\ at_boundary prev rest = true
  | Str l => ci l w
  | Rep0 p => all_of p w
  | Rep1 p => w <> [] /\ all_of p w
  | Cat r1 r2 =>
      exists w1 w2, w = w1 ++ w2 /\ den r1 prev w1 (w2 ++ rest)
                    /\ den r2 (last_of prev w1) w2 rest
  | Alt r1 r2 => den r1 prev w rest \/ den r2 prev w rest
  end.

(** Later matches start after earlier ones, and at or after their end. *)
Definition before (x y : nat * nat) : Prop := fst x < fst y /\ snd x <= fst y.

(** ** The phrases the patterns describe *)

(** One or more white-space characters. *)
Definition spaces (w : str) : Prop := w <> [] /\ all_of is_space w.

(** The opening keyword phrase: OPEN, white space, DATASET, in any case,
    as whole words; [prev] is the character before it, [rest] the text
    after it. *)
Definition opening_phrase (prev : option char) (w rest : str) : Prop :=
  exists o ws d,
    w = o ++ ws ++ d /\ ci (lit "OPEN") o /\ spaces ws /\ ci (lit "DATASET") d
    /\ word_opt prev = false /\ word_opt (head rest) = false.

(** A statement: the opening phrase, then characters other than the
    period, then the period. *)
Definition statement (prev : option char) (w : str) : Prop :=
  exists ph body,
    w = ph ++ body ++ [DOT] /\ opening_phrase prev ph (body ++ [DOT])
    /\ DOT ∉ body.

(** A mode clause: IN, white space, the mode keyword, white space, MODE,
    in any case, as whole words. *)
Definition mode_phrase (kw : str) (prev : option char) (w rest : str) : Prop :=
  exists i ws1 k ws2 m,
    w = i ++ ws1 ++ k ++ ws2 ++ m /\ ci (lit "IN") i /\ spaces ws1 /\ ci kw k
    /\ spaces ws2 /\ ci (lit "MODE") m
    /\ word_opt prev = false /\ word_opt (head rest) = false.

(** An encoding clause: the whole word ENCODING in any case, white space,
    and one or more characters that are not white space. *)
Definition encoding_phrase (prev : option char) (w rest : str) : Prop :=
  exists e ws tok,
    w = e ++ ws ++ tok /\ ci (lit "ENCODING") e /\ spaces ws
    /\ tok <> [] /\ all_of non_space tok /\ word_opt prev = false.

(** The phrase occurs somewhere in [s]. *)
Definition occurs (P : option char -> str -> str -> Prop) (s : str) : Prop :=
  exists pre w post, s = pre ++ w ++ post /\ P (last pre) w post.

(** The opening phrase alone: the head of [STMT_RE]. *)
Definition OPENING_RE : regex :=
  Bnd $$ Str (lit "OPEN") $$ Rep1 is_space $$ Str (lit "DATASET") $$ Bnd.

(** What one turn of the loop appends for the match [m]. *)
Definition emitted (unit : Unit) (m : nat * nat) : list Finding :=
  scan_stmt unit (or_empty (code unit)) (or_zero (start_line unit)) [] m.

(** The fields of a finding that do not depend on its kind, for the
    statement at [a..b) of [unit]. *)
Definition located (unit : Unit) (a b : nat) (f : Finding) : Prop :=
  let src := or_empty (code unit) in
  let base := or_zero (start_line unit) in
  let line := (Z.of_nat (count NL (take a src)) + 1)%Z in
  let snip := get_line_snippet src a b in
  prog_name f = Some (pgm_name unit)
  /\ incl_name f = Some (inc_name unit)
  /\ types f = Some (type unit)
  /\ blockname f = name unit
  /\ starting_line f = Some (base + line)%Z
  /\ ending_line f = Some (base + line + (Z.of_nat (count NL snip) + 1))%Z
  /\ severity f = Some (lit "error")
  /\ snippet f = Some (replace NL [BACKSLASH; LETTER_N] snip).

(** ** Sample units *)

Definition sample (start : option Z) (text : string) : Unit :=
  {| pgm_name := lit "ZPROG"; inc_name := lit "ZINCL"; type := lit "FORM";
     name := Some (lit "write_file"); start_line := start; end_line := None;
     code := Some (lit text); findings := None |}.

Definition u_no_mode : Unit :=
  sample (Some 10%Z) "OPEN DATASET lv_file FOR INPUT.".

Definition u_text_binary : Unit :=
  sample (Some 10%Z)
    "OPEN DATASET a FOR INPUT IN TEXT MODE. OPEN DATASET b FOR INPUT IN BINARY MODE.".

Definition u_encoded : Unit :=
  sample (Some 10%Z)
    "OPEN DATASET a FOR OUTPUT IN TEXT MODE ENCODING UTF-8.".

Definition u_clean : Unit :=
  sample (Some 10%Z) "OPENDATASET f. WRITE: / 'OPEN_DATASET'.".

Definition u_empty : Unit := sample None EmptyString.

(** The unit of the line-number scenario. *)
Definition u_scenario : Unit :=
  sample (Some 10%Z) "A.
OPEN DATASET F.
".

Definition u_two_lines : Unit :=
  sample None "DATA f.
  open dataset f for output
    in text mode. CLOSE DATASET f.
".

Definition u_unfinished : Unit :=
  sample (Some 1%Z) "OPEN DATASET a IN BINARY MODE. OPEN DATASET b FOR INPUT".

(** Three units of which only the second has a defect. *)
Definition u_batch : list Unit := [u_clean; u_no_mode; u_encoded].

(** ** Vocabulary of the further properties *)

(** The line range of [f] lies before that of [g]: [f] starts no later
    than [g], and the last line [f] covers (its ending line is one past
    it) is no later than the first line of [g]. *)
Definition lines_before (f g : Finding) : Prop :=
  exists s1 e1 s2,
    starting_line f = Some s1 /\ ending_line f = Some e1
    /\ starting_line g = Some s2 /\ (s1 <= s2)%Z /\ (e1 <= s2 + 1)%Z.

(** The unit with another base offset, and with another code. *)
Definition with_start_line (n : option Z) (unit : Unit) : Unit :=
  {| pgm_name := pgm_name unit; inc_name := inc_name unit;
     type := type unit; name := name unit;
     start_line := n; end_line := end_line unit;
     code := code unit; findings := findings unit |}.

Definition with_code (c : option str) (unit : Unit) : Unit :=
  {| pgm_name := pgm_name unit; inc_name := inc_name unit;
     type := type unit; name := name unit;
     start_line := start_line unit; end_line := end_line unit;
     code := c; findings := findings unit |}.

(** The finding moved down by [d] lines. *)
Definition shift_lines (d : Z) (f : Finding) : Finding :=
  {| prog_name := prog_name f; incl_name := incl_name f; types := types f;
     blockname := blockname f;
     starting_line := (fun n => n + d)%Z <$> starting_line f;
     ending_line := (fun n => n + d)%Z <$> ending_line f;
     issues_type := issues_type f; severity := severity f;
     message := message f; suggestion := suggestion f;
     snippet := snippet f |}.

(** A pattern whose character classes do not tell the cases of a letter
    apart (its literals never do). *)
Fixpoint case_blind (r : regex) : Prop :=
  match r with
  | Bnd | Str _ => True
  | Rep0 p | Rep1 p => forall c, p (lower c) = p c
  | Cat r1 r2 | Alt r1 r2 => case_blind r1 /\ case_blind r2
  end.

(** The lines and the kind of a finding. *)
Definition outline (f : Finding) : option Z * option Z * option str :=
  (starting_line f, ending_line f, issues_type f).

(** The finding with every character of its snippet replaced by
    [lower]. *)
Definition lower_snippet (f : Finding) : Finding :=
  {| prog_name := prog_name f; incl_name := incl_name f; types := types f;
     blockname := blockname f;
     starting_line := starting_line f; ending_line := ending_line f;
     issues_type := issues_type f; severity := severity f;
     message := message f; suggestion := suggestion f;
     snippet := (fun s : str => lower <$> s) <$> snippet f |}.

(** The span moved right by [d] characters. *)
Definition shift_span (d : nat) (m : nat * nat) : nat * nat :=
  (fst m + d, snd m + d).

(** ** Texts with characters beyond ASCII *)

(** LATIN SMALL LETTER LONG S, LATIN CAPITAL LETTER I WITH DOT ABOVE,
    LATIN SMALL LETTER DOTLESS I and EM SPACE. *)
Definition LONG_S : char := 383%N.
Definition DOTTED_I : char := 304%N.
Definition DOTLESS_I : char := 305%N.
Definition EM_SPACE : char := 8195%N.

(** OPEN DATA?ET f. with a long s, and an em space between the words. *)
Definition text_long_s : str :=
  lit "OPEN" ++ [EM_SPACE] ++ lit "DATA" ++ [LONG_S] ++ lit "ET f.".

(** OPEN DATASET f ?N TEXT MODE. with a dotted capital I. *)
Definition text_dotted_i : str :=
  lit "OPEN DATASET f " ++ [DOTTED_I] ++ lit "N TEXT MODE.".

(** OPEN DATASET f IN TEXT MODE ENCOD?NG UTF-8. with a dotless i. *)
Definition text_dotless_i : str :=
  lit "OPEN DATASET f IN TEXT MODE ENCOD" ++ [DOTLESS_I] ++ lit "NG UTF-8.".

Definition text_plain : str := lit "open dataset f in text mode.".

Definition text_folded : str :=
  lit "Open Data" ++ [LONG_S] ++ lit "et F " ++ [DOTTED_I]
  ++ lit "n Text mode.".

(** * Properties *)

(** ** The matcher agrees with the meaning of the patterns *)

Section Engine.

Implicit Types (r : regex) (prev : option char) (s w rest : str) (k : cont).

Lemma last_of_nil prev : last_of prev [] = prev.
Proof. reflexivity. Qed.

Lemma last_of_cons prev c w : last_of prev (c :: w) = last_of (Some c) w.
Proof.
  unfold last_of. rewrite last_cons. destruct (last w); reflexivity.
Qed.

Lemma last_of_app prev w1 w2 :
  last_of prev (w1 ++ w2) = last_of (last_of prev w1) w2.
Proof.
  revert prev. induction w1 as [|c w1 IH]; intros prev; [reflexivity|].
  rewrite <- app_comm_cons, !last_of_cons. apply IH.
Qed.

Lemma last_of_None w : last_of None w = last w.
Proof. unfold last_of. destruct (last w); reflexivity. Qed.

Lemma eq_ci_true a c : eq_ci a c = true <-> lower c = lower a.
Proof.
  unfold eq_ci. rewrite N.eqb_eq. split; congruence.
Qed.

Lemma run_str_sound l prev s k n :
  run_str l prev s k = Some n ->
  exists w rest m, s = w ++ rest /\ ci l w
                   /\ k (last_of prev w) rest = Some m /\ n = length w + m.
Proof.
  revert prev s n. induction l as [|a l IH]; intros prev s n H; simpl in H.
  - exists [], s, n. repeat split; done.
  - destruct s as [|c s]; [done|].
    destruct (eq_ci a c) eqn:E; [|done].
    destruct (run_str l (Some c) s k) as [n'|] eqn:R; [|done].
    simpl in H. injection H as <-.
    destruct (IH _ _ _ R) as (w & rest & m & -> & Hw & Hk & ->).
    exists (c :: w), rest, m. rewrite last_of_cons. repeat split; try done.
    unfold ci in *. rewrite !fmap_cons. apply eq_ci_true in E. congruence.
Qed.

Lemma run_str_complete l prev w rest k m :
  ci l w -> k (last_of prev w) rest = Some m ->
  run_str l prev (w ++ rest) k = Some (length w + m).
Proof.
  revert prev w. induction l as [|a l IH]; intros prev w Hw Hk.
  - destruct w; [|done]. done.
  - destruct w as [|c w]; [done|]. unfold ci in Hw. rewrite !fmap_cons in Hw.
    injection Hw as Hc Hw. simpl.
    apply eq_ci_true in Hc. rewrite Hc.
    rewrite last_of_cons in Hk. by rewrite (IH _ _ Hw Hk).
Qed.

Lemma run_rep_sound p prev s k n :
  run_rep p prev s k = Some n ->
  exists w rest m, s = w ++ rest /\ all_of p w
                   /\ k (last_of prev w) rest = Some m /\ n = length w + m.
Proof.
  revert prev n. induction s as [|c s IH]; intros prev n H; simpl in H.
  - exists [], [], n. repeat split; try done. constructor.
  - assert (Hstop : k prev (c :: s) = Some n ->
      exists w rest m, c :: s = w ++ rest /\ all_of p w
        /\ k (last_of prev w) rest = Some m /\ n = length w + m).
    { intros Hk. exists [], (c :: s), n. repeat split; try done. constructor. }
    destruct (p c) eqn:Hp; [|auto].
    destruct (run_rep p (Some c) s k) as [n'|] eqn:R; [|auto].
    injection H as <-.
    destruct (IH _ _ R) as (w & rest & m & -> & Hw & Hk & ->).
    exists (c :: w), rest, m. rewrite last_of_cons. repeat split; try done.
    by constructor.
Qed.

Lemma run_rep_complete p prev w rest k :
  all_of p w -> is_Some (k (last_of prev w) rest) ->
  is_Some (run_rep p prev (w ++ rest) k).
Proof.
  revert prev. induction w as [|c w IH]; intros prev Hw Hk.
  - simpl. rewrite last_of_nil in Hk. destruct rest as [|c rest]; [done|].
    simpl. destruct (p c); [|done].
    destruct (run_rep p (Some c) rest k); [by eexists | done].
  - inversion Hw as [|? ? Hc Hw']; subst. simpl. rewrite Hc.
    rewrite last_of_cons in Hk.
    destruct (IH (Some c) Hw' Hk) as [n ->]. by eexists.
Qed.

(** The matcher only reports matches the pattern has. *)
Lemma run_sound r prev s k n :
  run r prev s k = Some n ->
  exists w rest m, s = w ++ rest /\ den r prev w rest
                   /\ k (last_of prev w) rest = Some m /\ n = length w + m.
Proof.
  revert prev s k n.
  induction r as [|l|p|p|r1 IH1 r2 IH2|r1 IH1 r2 IH2]; intros prev s k n H;
    simpl in H.
  - destruct (at_boundary prev s) eqn:B; [|done].
    exists [], s, n. repeat split; done.
  - by apply run_str_sound.
  - by apply run_rep_sound.
  - destruct s as [|c s]; [done|]. destruct (p c) eqn:Hp; [|done].
    destruct (run_rep p (Some c) s k) as [n'|] eqn:R; [|done].
    simpl in H. injection H as <-.
    destruct (run_rep_sound _ _ _ _ _ R) as (w & rest & m & -> & Hw & Hk & ->).
    exists (c :: w), rest, m. rewrite last_of_cons.
    repeat split; try done. by constructor.
  - destruct (IH1 _ _ _ _ H) as (w1 & rest1 & m1 & -> & H1 & Hk1 & ->).
    destruct (IH2 _ _ _ _ Hk1) as (w2 & rest & m & -> & H2 & Hk & ->).
    exists (w1 ++ w2), rest, m. rewrite last_of_app, length_app.
    repeat split; [by rewrite app_assoc| |done|lia].
    by exists w1, w2.
  - destruct (run r1 prev s k) as [n1|] eqn:R1.
    + injection H as <-.
      destruct (IH1 _ _ _ _ R1) as (w & rest & m & ? & ? & ? & ?).
      exists w, rest, m. simpl. auto.
    + destruct (IH2 _ _ _ _ H) as (w & rest & m & ? & ? & ? & ?).
      exists w, rest, m. simpl. auto.
Qed.

(** The matcher finds a match whenever the pattern has one. *)
Lemma run_complete r prev w rest k :
  den r prev w rest -> is_Some (k (last_of prev w) rest) ->
  is_Some (run r prev (w ++ rest) k).
Proof.
  revert prev w rest k.
  induction r as [|l|p|p|r1 IH1 r2 IH2|r1 IH1 r2 IH2];
    intros prev w rest k H Hk; simpl in H |- *.
  - destruct H as [-> B]. simpl. by rewrite B.
  - destruct Hk as [m Hk]. rewrite (run_str_complete _ _ _ _ _ _ H Hk).
    by eexists.
  - by apply run_rep_complete.
  - destruct H as [Hne Hw]. destruct w as [|c w]; [done|].
    inversion Hw as [|? ? Hc Hw']; subst. simpl. rewrite Hc.
    rewrite last_of_cons in Hk.
    destruct (run_rep_complete p (Some c) w rest k Hw' Hk) as [n ->].
    by eexists.
  - destruct H as (w1 & w2 & -> & H1 & H2). rewrite <- app_assoc.
    apply IH1; [done|]. apply IH2; [done|]. by rewrite <- last_of_app.
  - destruct (run r1 prev (w ++ rest) k) eqn:R1; [by eexists|].
    destruct H as [H|H]; [|by apply IH2].
    destruct (IH1 _ _ _ _ H Hk) as [n Hn]. congruence.
Qed.

Lemma match_at_sound r prev s n :
  match_at r prev s = Some n ->
  exists w rest, s = w ++ rest /\ den r prev w rest /\ n = length w.
Proof.
  intros H. destruct (run_sound _ _ _ _ _ H) as (w & rest & m & ? & ? & Hk & ->).
  injection Hk as <-. exists w, rest. repeat split; try done; lia.
Qed.

Lemma match_at_complete r prev w rest :
  den r prev w rest -> is_Some (match_at r prev (w ++ rest)).
Proof. intros H. apply run_complete; [done | by eexists]. Qed.

Lemma search_from_spec r prev s :
  search_from r prev s = true <->
  exists pre w post, s = pre ++ w ++ post /\ den r (last_of prev pre) w post.
Proof.
  revert prev. induction s as [|c s IH]; intros prev; simpl.
  - destruct (match_at r prev []) as [n|] eqn:M.
    + split; [intros _|done].
      destruct (match_at_sound _ _ _ _ M) as (w & rest & E & D & _).
      exists [], w, rest. by split.
    + split; [done|]. intros (pre & w & post & E & D).
      symmetry in E. apply app_eq_nil in E as [-> E].
      destruct (match_at_complete _ _ _ _ D) as [n Hn].
      rewrite last_of_nil, E in Hn. congruence.
  - destruct (match_at r prev (c :: s)) as [n|] eqn:M.
    + split; [intros _|done].
      destruct (match_at_sound _ _ _ _ M) as (w & rest & E & D & _).
      exists [], w, rest. by split.
    + rewrite IH. split.
      * intros (pre & w & post & -> & D). exists (c :: pre), w, post.
        rewrite last_of_cons. by split.
      * intros (pre & w & post & E & D). destruct pre as [|c' pre].
        -- destruct (match_at_complete _ _ _ _ D) as [n Hn].
           simpl in E. rewrite last_of_nil, <- E in Hn. congruence.
        -- simpl in E. injection E as <- ->. rewrite last_of_cons in D.
           by exists pre, w, post.
Qed.

(** [search] succeeds exactly when the pattern occurs somewhere. *)
Lemma search_spec r s :
  search r s = true <->
  exists pre w post, s = pre ++ w ++ post /\ den r (last pre) w post.
Proof.
  unfold search. rewrite search_from_spec.
  split; intros (pre & w & post & E & D); exists pre, w, post;
    by rewrite last_of_None in *.
Qed.

End Engine.

(** ** Matches found by [finditer] *)

Section Finditer.

Implicit Types (r : regex) (prev : option char) (s w : str).

(** Every span reported is a match of the pattern at that offset. *)
Lemma finditer_from_spec r prev s pos skip a b :
  (a, b) ∈ finditer_from r prev s pos skip ->
  exists pre w post,
    s = pre ++ w ++ post /\ a = pos + length pre /\ b = a + length w
    /\ skip <= length pre /\ den r (last_of prev pre) w post.
Proof.
  revert prev pos skip. induction s as [|c s IH]; intros prev pos skip H.
  - destruct skip as [|skip]; simpl in H; [|by apply elem_of_nil in H].
    destruct (match_at r prev []) as [n|] eqn:M; [|by apply elem_of_nil in H].
    apply list_elem_of_singleton in H. injection H as -> ->.
    destruct (match_at_sound _ _ _ _ M) as (w & rest & E & D & ->).
    exists [], w, rest. simpl. repeat split; try done; lia.
  - assert (Htail : forall skip',
      (a, b) ∈ finditer_from r (Some c) s (S pos) skip' ->
      exists pre w post,
        c :: s = pre ++ w ++ post /\ a = pos + length pre /\ b = a + length w
        /\ S skip' <= length pre /\ den r (last_of prev pre) w post).
    { intros skip' H'.
      destruct (IH _ _ _ H') as (pre & w & post & -> & -> & -> & Hs & D).
      exists (c :: pre), w, post. rewrite last_of_cons. simpl.
      repeat split; try done; lia. }
    destruct skip as [|skip]; simpl in H; [|by apply Htail].
    destruct (match_at r prev (c :: s)) as [n|] eqn:M.
    + apply elem_of_cons in H as [H|H].
      * injection H as -> ->.
        destruct (match_at_sound _ _ _ _ M) as (w & rest & E & D & ->).
        exists [], w, rest. simpl. repeat split; try done; lia.
      * destruct (Htail _ H) as (pre & w & post & ? & ? & ? & ? & ?).
        exists pre, w, post. repeat split; try done; lia.
    + destruct (Htail _ H) as (pre & w & post & ? & ? & ? & ? & ?).
      exists pre, w, post. repeat split; try done; lia.
Qed.

Lemma finditer_spec r s a b :
  (a, b) ∈ finditer r s ->
  exists pre w post,
    s = pre ++ w ++ post /\ a = length pre /\ b = a + length w
    /\ den r (last pre) w post.
Proof.
  intros H. destruct (finditer_from_spec _ _ _ _ _ _ _ H)
    as (pre & w & post & ? & ? & ? & _ & D).
  exists pre, w, post. rewrite last_of_None in D. by repeat split.
Qed.


Lemma finditer_from_sorted r prev s pos skip :
  StronglySorted before (finditer_from r prev s pos skip).
Proof.
  revert prev pos skip. induction s as [|c s IH]; intros prev pos skip.
  - destruct skip; simpl; [|constructor].
    destruct (match_at r prev []); repeat constructor.
  - destruct skip as [|skip]; simpl; [|apply IH].
    destruct (match_at r prev (c :: s)) as [n|]; [|apply IH].
    apply StronglySorted_cons. split; [|apply IH].
    apply Forall_forall. intros [a b] H.
    destruct (finditer_from_spec _ _ _ _ _ _ _ H)
      as (pre & w & post & _ & -> & _ & Hs & _).
    unfold before. simpl. lia.
Qed.

Lemma finditer_sorted r s : StronglySorted before (finditer r s).
Proof. apply finditer_from_sorted. Qed.

End Finditer.

(** ** Slices of a text cut in three *)

Section Slices.

Implicit Types (pre w post : str).

Lemma slice_mid pre w post :
  slice (pre ++ w ++ post) (length pre) (length pre + length w) = w.
Proof.
  unfold slice. rewrite drop_app_length.
  replace (length pre + length w - length pre) with (length w) by lia.
  apply take_app_length.
Qed.

End Slices.

(** ** Facts about characters *)

Section Characters.

Implicit Types (c : char).

Lemma in_upto n lo c :
  (lo <= c)%N -> (c < lo + N.of_nat n)%N -> c ∈ upto lo n.
Proof.
  revert lo. induction n as [|n IH]; intros lo H1 H2; [lia|].
  simpl. destruct (N.eq_dec c lo) as [->|Hne]; [left|].
  right. apply IH; lia.
Qed.

(** A test passed by each code point of a set holds on the set. *)
Lemma in_ranges_all (Q : N -> bool) (rs : list (N * N)) c :
  forallb (fun r => forallb Q (enum r)) rs = true ->
  in_ranges rs c = true -> Q c = true.
Proof.
  unfold in_ranges. intros Hall Hc. apply List.existsb_exists in Hc.
  destruct Hc as ([lo hi] & Hin & Hc). simpl in Hc.
  apply andb_true_iff in Hc as [H1 H2]. apply N.leb_le in H1, H2.
  rewrite List.forallb_forall in Hall. specialize (Hall _ Hin).
  rewrite List.forallb_forall in Hall. apply Hall.
  apply list_elem_of_In. unfold enum. simpl. apply in_upto; lia.
Qed.

Lemma lower_id c : in_ranges lower_dom c = false -> lower c = c.
Proof.
  unfold lower, lower_dom, in_ranges. cbn [List.existsb fst snd].
  rewrite !orb_false_r. intros H.
  destruct ((65 <=? c)%N && (c <=? 90)%N)%bool; [done|].
  destruct ((304 <=? c)%N && (c <=? 305)%N)%bool; [done|].
  cbn [orb] in H.
  destruct (N.eqb_spec c 383) as [->|_]; [done|].
  destruct (N.eqb_spec c 8490) as [->|_]; [done|]. done.
Qed.

(** A test on [lower c] and [c], passed by the characters [lower]
    changes and by those it leaves, holds for every character. *)
Lemma lower_all (Q : N -> N -> bool) c :
  (forall x, lower x = x -> Q x x = true) ->
  forallb (fun r => forallb (fun x => Q (lower x) x) (enum r)) lower_dom
  = true ->
  Q (lower c) c = true.
Proof.
  intros Hid Hdom. destruct (in_ranges lower_dom c) eqn:E.
  - by apply (in_ranges_all (fun x => Q (lower x) x) lower_dom).
  - pose proof (lower_id _ E) as Hc. rewrite Hc. by apply Hid.
Qed.

Lemma is_word_lower c : is_word (lower c) = is_word c.
Proof.
  apply Bool.eqb_prop.
  apply (lower_all (fun y x => Bool.eqb (is_word y) (is_word x))).
  - intros x _. apply Bool.eqb_reflx.
  - vm_compute. reflexivity.
Qed.

Lemma space_not_word c : is_space c = true -> is_word c = false.
Proof.
  intros H. apply negb_true_iff.
  revert H. apply (in_ranges_all (fun x => negb (is_word x))).
  vm_compute. reflexivity.
Qed.

Lemma lower_dot c : lower c = DOT -> c = DOT.
Proof.
  intros H. apply N.eqb_eq.
  assert (implb (N.eqb (lower c) DOT) (N.eqb c DOT) = true) as Hi.
  { apply (lower_all (fun y x => implb (N.eqb y DOT) (N.eqb x DOT))).
    - intros x _. by destruct (N.eqb x DOT).
    - vm_compute. reflexivity. }
  rewrite H in Hi. exact Hi.
Qed.

Lemma not_dot_true c : not_dot c = true <-> c <> DOT.
Proof.
  unfold not_dot. rewrite negb_true_iff. apply N.eqb_neq.
Qed.

Lemma all_not_dot (w : str) : all_of not_dot w <-> DOT ∉ w.
Proof.
  unfold all_of. rewrite Forall_forall. split.
  - intros H Hin. specialize (H _ Hin). by apply not_dot_true in H.
  - intros H c Hc. apply not_dot_true. by intros ->.
Qed.

Lemma all_space_no_dot (w : str) : all_of is_space w -> DOT ∉ w.
Proof.
  unfold all_of. rewrite Forall_forall. intros H Hin. by specialize (H _ Hin).
Qed.

End Characters.

(** ** Facts about words equal up to case *)

Section CaseInsensitive.

Implicit Types (l w : str) (prev : option char).

Lemma ci_length l w : ci l w -> length w = length l.
Proof.
  intros H. apply (f_equal length) in H. by rewrite !length_fmap in H.
Qed.

Lemma ci_nonempty l w : ci l w -> l <> [] -> w <> [].
Proof. intros H Hl ->. apply ci_length in H. by destruct l. Qed.

Lemma word_opt_lower (o : option char) : word_opt (lower <$> o) = word_opt o.
Proof. destruct o; [apply is_word_lower | reflexivity]. Qed.

Lemma ci_word_head l w : ci l w -> word_opt (head w) = word_opt (head l).
Proof.
  intros H. destruct w as [|c w], l as [|a l]; try done.
  unfold ci in H. rewrite !fmap_cons in H. injection H as Hc _. simpl.
  by rewrite <- (is_word_lower c), Hc, is_word_lower.
Qed.

Lemma ci_word_last l w : ci l w -> word_opt (last w) = word_opt (last l).
Proof.
  intros H. apply (f_equal last) in H. rewrite !fmap_last in H.
  by rewrite <- (word_opt_lower (last w)), H, word_opt_lower.
Qed.

Lemma ci_word_last_of l w prev :
  ci l w -> l <> [] -> word_opt (last_of prev w) = word_opt (last l).
Proof.
  intros H Hl. pose proof (ci_nonempty _ _ H Hl) as Hw.
  apply last_is_Some in Hw as [c Hc]. unfold last_of. rewrite Hc, <- Hc.
  by apply ci_word_last.
Qed.

Lemma ci_no_dot l w : ci l w -> DOT ∉ (lower <$> l) -> DOT ∉ w.
Proof.
  intros H Hl Hw. apply Hl. rewrite <- H.
  change DOT with (lower DOT). by apply list_elem_of_fmap_2.
Qed.

Lemma ci_dot w : ci [DOT] w <-> w = [DOT].
Proof.
  split; [|by intros ->].
  intros H. destruct w as [|c [|c' w]]; try done.
  unfold ci in H. simpl in H. injection H as H. by rewrite (lower_dot c H).
Qed.

Lemma at_boundary_next prev (s : str) :
  word_opt (head s) = true ->
  at_boundary prev s = true <-> word_opt prev = false.
Proof. unfold at_boundary. intros ->. by destruct (word_opt prev). Qed.

Lemma at_boundary_prev prev (s : str) :
  word_opt prev = true ->
  at_boundary prev s = true <-> word_opt (head s) = false.
Proof. unfold at_boundary. intros ->. by destruct (word_opt (head s)). Qed.

Lemma head_app_cons {A} (l1 l2 : list A) : l1 <> [] -> head (l1 ++ l2) = head l1.
Proof. by destruct l1. Qed.

End CaseInsensitive.


Section Phrases.

Implicit Types (prev : option char) (w rest s : str).

Lemma spaces_head_not_word w rest : spaces w -> word_opt (head (w ++ rest)) = false.
Proof.
  intros [Hne Hw]. destruct w as [|c w]; [done|].
  inversion Hw; subst. simpl. by apply space_not_word.
Qed.

Lemma den_STMT prev w rest : den STMT_RE prev w rest <-> statement prev w.
Proof.
  unfold STMT_RE, statement, opening_phrase. cbn [den]. split.
  - intros (w1 & w2 & -> & [-> B1] & o & w4 & -> & Ho & ws & w6 & -> & Hws
            & d & w8 & -> & Hd & w9 & w10 & -> & [-> B2]
            & body & p & -> & Hbody & Hp).
    apply ci_dot in Hp as ->. apply all_not_dot in Hbody.
    rewrite <- app_assoc in B1.
    apply at_boundary_next in B1;
      [|by rewrite head_app_cons, (ci_word_head _ _ Ho)
           by (by eapply ci_nonempty)].
    apply at_boundary_prev in B2;
      [|by rewrite (ci_word_last_of _ _ _ Hd)].
    rewrite head_app_cons in B2 by (by destruct body).
    exists (o ++ ws ++ d), body. simpl. rewrite <- !app_assoc.
    repeat split; try done. by exists o, ws, d.
  - intros (ph & body & -> & (o & ws & d & -> & Ho & Hws & Hd & B1 & B2) & Hbody).
    exists [], ((o ++ ws ++ d) ++ body ++ [DOT]). split; [done|]. split.
    { split; [done|]. rewrite <- !app_assoc. apply at_boundary_next; [|done].
      by rewrite head_app_cons, (ci_word_head _ _ Ho)
        by (by eapply ci_nonempty). }
    exists o, (ws ++ d ++ body ++ [DOT]). split; [by rewrite <- !app_assoc|].
    split; [done|].
    exists ws, (d ++ body ++ [DOT]). split; [done|]. split; [done|].
    exists d, (body ++ [DOT]). split; [done|]. split; [done|].
    exists [], (body ++ [DOT]). split; [done|]. split.
    { split; [done|]. apply at_boundary_prev.
      - by rewrite last_of_nil, (ci_word_last_of _ _ _ Hd).
      - by rewrite head_app_cons by (by destruct body). }
    exists body, [DOT]. split; [done|]. split; [by apply all_not_dot|].
    by apply ci_dot.
Qed.

Lemma den_mode kw (r : regex) prev w rest :
  kw <> [] ->
  (forall p x y, den r p x y <-> ci kw x) ->
  den (Bnd $$ Str (lit "IN") $$ Rep1 is_space $$ r
           $$ Rep1 is_space $$ Str (lit "MODE") $$ Bnd) prev w rest
  <-> mode_phrase kw prev w rest.
Proof.
  intros Hkw Hr. unfold mode_phrase. cbn [den]. split.
  - intros (w1 & w2 & -> & [-> B1] & i & w4 & -> & Hi & ws1 & w6 & -> & Hws1
            & k & w8 & -> & Hk & ws2 & w10 & -> & Hws2
            & m & w12 & -> & Hm & -> & B2).
    apply Hr in Hk. rewrite <- app_assoc in B1.
    apply at_boundary_next in B1;
      [|by rewrite head_app_cons, (ci_word_head _ _ Hi)
           by (by eapply ci_nonempty)].
    apply at_boundary_prev in B2;
      [|by rewrite (ci_word_last_of _ _ _ Hm)].
    exists i, ws1, k, ws2, m. rewrite !app_nil_r. cbn [app]. by split_and!.
  - intros (i & ws1 & k & ws2 & m & -> & Hi & Hws1 & Hk & Hws2 & Hm & B1 & B2).
    exists [], (i ++ ws1 ++ k ++ ws2 ++ m). split; [done|]. split.
    { split; [done|]. rewrite <- !app_assoc. apply at_boundary_next; [|done].
      by rewrite head_app_cons, (ci_word_head _ _ Hi)
        by (by eapply ci_nonempty). }
    exists i, (ws1 ++ k ++ ws2 ++ m). split; [done|]. split; [done|].
    exists ws1, (k ++ ws2 ++ m). split; [done|]. split; [done|].
    exists k, (ws2 ++ m). split; [done|]. split; [by apply Hr|].
    exists ws2, m. split; [done|]. split; [done|].
    exists m, []. split; [by rewrite app_nil_r|]. split; [done|].
    split; [done|]. apply at_boundary_prev; [|done].
    by rewrite (ci_word_last_of _ _ _ Hm).
Qed.

Lemma den_TEXT_MODE prev w rest :
  den TEXT_MODE_RE prev w rest <-> mode_phrase (lit "TEXT") prev w rest.
Proof. by apply den_mode. Qed.

Lemma den_MODE prev w rest :
  den MODE_RE prev w rest <->
  mode_phrase (lit "TEXT") prev w rest \/ mode_phrase (lit "BINARY") prev w rest.
Proof.
  unfold MODE_RE. split.
  - intros H.
    assert (Hor : forall x, ci (lit "TEXT") x \/ ci (lit "BINARY") x ->
                    ci (lit "TEXT") x \/ ci (lit "BINARY") x) by auto.
    cbn [den] in H.
    destruct H as (w1 & w2 & E1 & HB1 & i & w4 & E2 & Hi & ws1 & w6 & E3 & Hws1
                   & k & w8 & E4 & [Hk|Hk] & Htail).
    + left. apply (den_mode (lit "TEXT") (Str (lit "TEXT"))); [done|done|].
      cbn [den]. exists w1, w2. repeat split; try apply HB1; try done.
      exists i, w4. repeat split; try done.
      exists ws1, w6. repeat split; try apply Hws1; try done.
      by exists k, w8.
    + right. apply (den_mode (lit "BINARY") (Str (lit "BINARY"))); [done|done|].
      cbn [den]. exists w1, w2. repeat split; try apply HB1; try done.
      exists i, w4. repeat split; try done.
      exists ws1, w6. repeat split; try apply Hws1; try done.
      by exists k, w8.
  - intros [H|H].
    + apply (den_mode (lit "TEXT") (Str (lit "TEXT"))) in H; [|done|done].
      cbn [den] in H |- *.
      destruct H as (w1 & w2 & E1 & HB1 & i & w4 & E2 & Hi & ws1 & w6 & E3 & Hws1
                     & k & w8 & E4 & Hk & Htail).
      exists w1, w2. repeat split; try apply HB1; try done.
      exists i, w4. repeat split; try done.
      exists ws1, w6. repeat split; try apply Hws1; try done.
      exists k, w8. auto.
    + apply (den_mode (lit "BINARY") (Str (lit "BINARY"))) in H; [|done|done].
      cbn [den] in H |- *.
      destruct H as (w1 & w2 & E1 & HB1 & i & w4 & E2 & Hi & ws1 & w6 & E3 & Hws1
                     & k & w8 & E4 & Hk & Htail).
      exists w1, w2. repeat split; try apply HB1; try done.
      exists i, w4. repeat split; try done.
      exists ws1, w6. repeat split; try apply Hws1; try done.
      exists k, w8. auto.
Qed.

Lemma den_ENCODING prev w rest :
  den ENCODING_RE prev w rest <-> encoding_phrase prev w rest.
Proof.
  unfold ENCODING_RE, encoding_phrase. cbn [den]. split.
  - intros (w1 & w2 & -> & [-> B1] & e & w4 & -> & He & w5 & w6 & -> & [-> B2]
            & ws & tok & -> & Hws & Hne & Htok).
    rewrite <- app_assoc in B1.
    apply at_boundary_next in B1;
      [|by rewrite head_app_cons, (ci_word_head _ _ He)
           by (by eapply ci_nonempty)].
    exists e, ws, tok. by split_and!.
  - intros (e & ws & tok & -> & He & Hws & Hne & Htok & B1).
    exists [], (e ++ ws ++ tok). split; [done|]. split.
    { split; [done|]. rewrite <- !app_assoc. apply at_boundary_next; [|done].
      by rewrite head_app_cons, (ci_word_head _ _ He)
        by (by eapply ci_nonempty). }
    exists e, (ws ++ tok). split; [done|]. split; [done|].
    exists [], (ws ++ tok). split; [done|]. split.
    { split; [done|]. apply at_boundary_prev.
      - by rewrite last_of_nil, (ci_word_last_of _ _ _ He).
      - rewrite <- app_assoc. by apply spaces_head_not_word. }
    by exists ws, tok.
Qed.

Lemma search_occurs r (P : option char -> str -> str -> Prop) s :
  (forall prev w rest, den r prev w rest <-> P prev w rest) ->
  search r s = true <-> occurs P s.
Proof.
  intros H. rewrite search_spec. unfold occurs.
  split; intros (pre & w & post & E & D); exists pre, w, post;
    (split; [done | by apply H]).
Qed.

Lemma search_TEXT_MODE s :
  search TEXT_MODE_RE s = true <-> occurs (mode_phrase (lit "TEXT")) s.
Proof. apply search_occurs, den_TEXT_MODE. Qed.

Lemma search_ENCODING s :
  search ENCODING_RE s = true <-> occurs encoding_phrase s.
Proof. apply search_occurs, den_ENCODING. Qed.

Lemma search_MODE s :
  search MODE_RE s = true <->
  occurs (mode_phrase (lit "TEXT")) s \/ occurs (mode_phrase (lit "BINARY")) s.
Proof.
  rewrite search_spec. unfold occurs. split.
  - intros (pre & w & post & E & D). apply den_MODE in D as [D|D];
      [left|right]; by exists pre, w, post.
  - intros [(pre & w & post & E & D)|(pre & w & post & E & D)];
      exists pre, w, post; (split; [done|]); apply den_MODE; auto.
Qed.

End Phrases.

(** ** The loop of [scan_unit], statement by statement *)

Section Loop.

Implicit Types (unit : Unit) (src : str) (m : nat * nat).

Lemma scan_stmt_app unit src base acc m :
  scan_stmt unit src base acc m = acc ++ scan_stmt unit src base [] m.
Proof.
  unfold scan_stmt.
  destruct (negb (search MODE_RE _)); [done|].
  destruct (search TEXT_MODE_RE _ && negb (search ENCODING_RE _))%bool;
    [done|by rewrite app_nil_r].
Qed.

Lemma fold_scan_stmt unit src base (l : list (nat * nat)) acc :
  fold_left (scan_stmt unit src base) l acc
  = acc ++ (l ≫= scan_stmt unit src base []).
Proof.
  revert acc. induction l as [|m l IH]; intros acc; simpl.
  - by rewrite app_nil_r.
  - rewrite IH, scan_stmt_app, <- app_assoc. done.
Qed.

Lemma scan_findings_bind unit :
  scan_findings unit
  = finditer STMT_RE (or_empty (code unit)) ≫= emitted unit.
Proof. unfold scan_findings. by rewrite fold_scan_stmt. Qed.

End Loop.

(** ** [find], [rfind], [count] and [replace] *)

Section StringOps.

Implicit Types (c : char) (s text : str).

Lemma find_first_None c s i : find_first c s i = None <-> c ∉ s.
Proof.
  revert i. induction s as [|x s IH]; intros i; simpl.
  - split; [intros _; apply not_elem_of_nil | done].
  - destruct (N.eqb_spec x c) as [->|Hne].
    + split; [done|]. intros H. exfalso. apply H. by left.
    + rewrite IH, not_elem_of_cons. split; [by intros ?; split | by intros [_ ?]].
Qed.

Lemma find_first_Some c s i j :
  find_first c s i = Some j ->
  exists k, j = i + k /\ s !! k = Some c /\ c ∉ take k s.
Proof.
  revert i. induction s as [|x s IH]; intros i H; simpl in H; [done|].
  destruct (N.eqb_spec x c) as [->|Hne].
  - injection H as <-. exists 0. repeat split; [lia|apply not_elem_of_nil].
  - destruct (IH _ H) as (k & -> & Hk & Hno). exists (S k).
    repeat split; [lia|done|]. simpl. rewrite not_elem_of_cons. naive_solver.
Qed.

Lemma find_last_spec c s i seen :
  (find_last c s i seen = seen /\ c ∉ s)
  \/ exists k, find_last c s i seen = Some (i + k)
               /\ s !! k = Some c /\ c ∉ drop (S k) s.
Proof.
  revert i seen. induction s as [|x s IH]; intros i seen; simpl.
  - left. split; [done | apply not_elem_of_nil].
  - destruct (N.eqb_spec x c) as [->|Hne].
    + destruct (IH (S i) (Some i)) as [[E Hno]|(k & E & Hk & Hno)].
      * right. exists 0. rewrite E, Nat.add_0_r. by rewrite drop_0.
      * right. exists (S k). rewrite E. repeat split; [f_equal; lia|done|done].
    + destruct (IH (S i) seen) as [[E Hno]|(k & E & Hk & Hno)].
      * left. split; [done|]. rewrite not_elem_of_cons. naive_solver.
      * right. exists (S k). rewrite E. repeat split; [f_equal; lia|done|done].
Qed.

(** Replacing a character by a string that does not contain it removes
    the character. *)
Lemma replace_removes c by_ s : c ∉ by_ -> c ∉ replace c by_ s.
Proof.
  intros Hby. induction s as [|x s IH]; simpl; [apply not_elem_of_nil|].
  rewrite elem_of_app. intros [H|H]; [|done].
  destruct (N.eqb_spec x c) as [->|Hne]; [done|].
  apply list_elem_of_singleton in H. congruence.
Qed.

Lemma replace_bind c by_ s :
  replace c by_ s = s ≫= (fun x => if N.eqb x c then by_ else [x]).
Proof. induction s as [|x s IH]; simpl; [done|]. by rewrite IH. Qed.

Lemma slice_split text a b :
  a <= b ->
  text = take a text ++ slice text a b ++ drop b text.
Proof.
  intros H. unfold slice.
  replace (drop b text) with (drop (b - a) (drop a text))
    by (rewrite drop_drop; f_equal; lia).
  by rewrite take_drop, take_drop.
Qed.

Lemma length_slice text a b :
  a <= b -> b <= length text -> length (slice text a b) = b - a.
Proof.
  intros Ha Hb. unfold slice. rewrite length_take, length_drop. lia.
Qed.

(** Where the line of offset [a] starts. *)
Lemma line_start_spec text a :
  a <= length text ->
  let line_start :=
    match rfind NL text 0 a with None => 0 | Some i => i + 1 end in
  line_start <= a
  /\ (take line_start text = [] \/ last (take line_start text) = Some NL)
  /\ NL ∉ slice text line_start a.
Proof.
  intros Ha. unfold rfind.
  destruct (find_last_spec NL (slice text 0 a) 0 None)
    as [[-> Hno]|(k & -> & Hk & Hno)]; simpl.
  - split; [lia|]. split; [by left | done].
  - unfold slice in Hk, Hno. rewrite drop_0, Nat.sub_0_r in Hk, Hno.
    apply lookup_take_Some in Hk as [Hk Hlt].
    replace (k + 1) with (S k) by lia. split; [lia|]. split.
    + right. rewrite last_lookup, length_take_le
        by (apply lookup_lt_Some in Hk; lia).
      simpl. by rewrite lookup_take_lt by lia.
    + unfold slice. rewrite take_drop_commute.
      by replace (S k + (a - S k)) with a by lia.
Qed.

(** Where the line of offset [b] ends. *)
Lemma line_end_spec text b :
  b <= length text ->
  let line_end :=
    match find NL text b with None => length text | Some j => j end in
  b <= line_end /\ line_end <= length text
  /\ (drop line_end text = [] \/ head (drop line_end text) = Some NL)
  /\ NL ∉ slice text b line_end.
Proof.
  intros Hb. unfold find.
  destruct (find_first NL (drop b text) b) as [j|] eqn:F; simpl.
  - apply find_first_Some in F as (k & -> & Hk & Hno).
    rewrite lookup_drop in Hk. pose proof (lookup_lt_Some _ _ _ Hk).
    split; [lia|]. split; [lia|]. split.
    + right. by rewrite head_lookup, lookup_drop, Nat.add_0_r.
    + unfold slice. by replace (b + k - b) with k by lia.
  - apply find_first_None in F.
    split; [done|]. split; [done|]. split.
    + left. by rewrite drop_all.
    + unfold slice. by rewrite take_ge by (rewrite length_drop; lia).
Qed.

(** The line or lines around a span: from just after the last newline
    before the span to just before the first newline after it. *)
Lemma get_line_snippet_spec text a b :
  a <= b -> b <= length text ->
  exists pre post,
    text = pre ++ get_line_snippet text a b ++ post
    /\ length pre <= a
    /\ b <= length pre + length (get_line_snippet text a b)
    /\ (pre = [] \/ last pre = Some NL)
    /\ (NL ∉ slice text (length pre) a)
    /\ (NL ∉ slice text b (length pre + length (get_line_snippet text a b)))
    /\ (post = [] \/ head post = Some NL).
Proof.
  intros Hab Hb. unfold get_line_snippet.
  pose proof (line_start_spec text a ltac:(lia)) as Hs.
  pose proof (line_end_spec text b Hb) as He.
  cbv zeta in Hs, He.
  set (ls := match rfind NL text 0 a with None => 0 | Some i => i + 1 end) in *.
  set (le := match find NL text b with None => length text | Some j => j end)
    in *.
  destruct Hs as (Hs1 & Hs2 & Hs3). destruct He as (He1 & He2 & He3 & He4).
  exists (take ls text), (drop le text).
  rewrite length_take_le, length_slice by lia.
  replace (ls + (le - ls)) with le by lia.
  split; [apply slice_split; lia|]. by split_and!.
Qed.

End StringOps.

(** ** What a turn of the loop emits *)

Section Emitted.

Implicit Types (unit : Unit) (a b : nat).

Lemma emitted_no_mode unit a b :
  search MODE_RE (slice (or_empty (code unit)) a b) = false ->
  exists f, emitted unit (a, b) = [f]
            /\ issues_type f = Some (lit "OpenDatasetNoMode")
            /\ message f = Some msg_no_mode
            /\ suggestion f = Some sug_no_mode
            /\ located unit a b f.
Proof.
  intros H. unfold emitted, scan_stmt. cbn [fst snd]. rewrite H. cbn [negb].
  eexists. split; [reflexivity|]. unfold located. cbn.
  rewrite !Nat2Z.inj_add. by split_and!.
Qed.

Lemma emitted_text_no_encoding unit a b :
  search MODE_RE (slice (or_empty (code unit)) a b) = true ->
  search TEXT_MODE_RE (slice (or_empty (code unit)) a b) = true ->
  search ENCODING_RE (slice (or_empty (code unit)) a b) = false ->
  exists f, emitted unit (a, b) = [f]
            /\ issues_type f = Some (lit "OpenDatasetTextNoEncoding")
            /\ message f = Some msg_no_encoding
            /\ suggestion f = Some sug_no_encoding
            /\ located unit a b f.
Proof.
  intros H1 H2 H3. unfold emitted, scan_stmt. cbn [fst snd].
  rewrite H1, H2, H3. cbn [negb andb].
  eexists. split; [reflexivity|]. unfold located. cbn.
  rewrite !Nat2Z.inj_add. by split_and!.
Qed.

Lemma emitted_nothing unit a b :
  search MODE_RE (slice (or_empty (code unit)) a b) = true ->
  search TEXT_MODE_RE (slice (or_empty (code unit)) a b) = false
  \/ search ENCODING_RE (slice (or_empty (code unit)) a b) = true ->
  emitted unit (a, b) = [].
Proof.
  intros H1 H2. unfold emitted, scan_stmt. cbn [fst snd]. rewrite H1.
  cbn [negb]. destruct H2 as [-> | ->]; [done|].
  by rewrite andb_false_r.
Qed.

(** A turn emits nothing or one finding, and the finding is located at
    the statement of the turn. *)
Lemma emitted_cases unit a b :
  emitted unit (a, b) = []
  \/ exists f, emitted unit (a, b) = [f] /\ located unit a b f.
Proof.
  destruct (search MODE_RE (slice (or_empty (code unit)) a b)) eqn:H1.
  - destruct (search TEXT_MODE_RE (slice (or_empty (code unit)) a b)) eqn:H2.
    + destruct (search ENCODING_RE (slice (or_empty (code unit)) a b)) eqn:H3.
      * left. apply emitted_nothing; auto.
      * right. destruct (emitted_text_no_encoding _ _ _ H1 H2 H3)
          as (f & ? & ? & ? & ? & ?). by exists f.
    + left. apply emitted_nothing; auto.
  - right. destruct (emitted_no_mode _ _ _ H1) as (f & ? & ? & ? & ? & ?).
    by exists f.
Qed.

Lemma not_true_false (x : bool) : x <> true <-> x = false.
Proof. by destruct x. Qed.

Lemma scan_unit_scan_findings unit :
  findings (scan_unit unit) = Some (scan_findings unit).
Proof. reflexivity. Qed.

Lemma scan_unit_findings unit :
  findings (scan_unit unit)
  = Some (finditer STMT_RE (or_empty (code unit)) ≫= emitted unit).
Proof. unfold scan_unit. cbn. by rewrite scan_findings_bind. Qed.

End Emitted.


(** * The claims *)

(** C1. A matched statement without a mode clause (neither [IN TEXT MODE]
    nor [IN BINARY MODE] occurs in it) makes [scan_unit] emit exactly one
    finding for it, of kind [OpenDatasetNoMode] and severity [error], with
    the fixed message and suggestion; no [OpenDatasetTextNoEncoding]
    finding is emitted for that statement. *)
Theorem C1_no_mode_one_finding (unit : Unit) (a b : nat) :
  let src := or_empty (code unit) in
  let stmt := slice src a b in
  (a, b) ∈ finditer STMT_RE src ->
  ~ occurs (mode_phrase (lit "TEXT")) stmt ->
  ~ occurs (mode_phrase (lit "BINARY")) stmt ->
  findings (scan_unit unit) = Some (finditer STMT_RE src ≫= emitted unit)
  /\ exists f,
      emitted unit (a, b) = [f]
      /\ issues_type f = Some (lit "OpenDatasetNoMode")
      /\ severity f = Some (lit "error")
      /\ message f = Some msg_no_mode
      /\ suggestion f = Some sug_no_mode
      /\ forall g, g ∈ emitted unit (a, b) ->
           issues_type g <> Some (lit "OpenDatasetTextNoEncoding").
Proof.
  intros src stmt Hm Ht Hb. split; [apply scan_unit_findings|].
  assert (H : search MODE_RE stmt = false).
  { apply not_true_false. rewrite search_MODE. tauto. }
  destruct (emitted_no_mode _ _ _ H) as (f & E & K & M & S & L).
  exists f. split_and!; try done; [apply L|].
  intros g Hg. rewrite E in Hg. apply list_elem_of_singleton in Hg as ->.
  by rewrite K.
Qed.

Lemma C1_witness :
  exists f, emitted u_no_mode (0, 31) = [f]
            /\ issues_type f = Some (lit "OpenDatasetNoMode").
Proof.
  destruct (C1_no_mode_one_finding u_no_mode 0 31) as (_ & f & E & K & _).
  - vm_compute. left.
  - intros H. apply search_TEXT_MODE in H. vm_compute in H. discriminate H.
  - intros H.
    assert (H' : search MODE_RE (slice (or_empty (code u_no_mode)) 0 31) = true)
      by (apply search_MODE; by right).
    vm_compute in H'. discriminate H'.
  - by exists f.
Defined.

(** C2. For a matched statement that has a mode clause: when it is in
    text mode and has no ENCODING keyword followed by white space and a
    token, exactly one finding of kind [OpenDatasetTextNoEncoding] is
    emitted for it; otherwise (binary mode, or text mode with an encoding
    clause) no finding is emitted for it. *)
Theorem C2_mode_present (unit : Unit) (a b : nat) :
  let src := or_empty (code unit) in
  let stmt := slice src a b in
  (a, b) ∈ finditer STMT_RE src ->
  occurs (mode_phrase (lit "TEXT")) stmt
  \/ occurs (mode_phrase (lit "BINARY")) stmt ->
  findings (scan_unit unit) = Some (finditer STMT_RE src ≫= emitted unit)
  /\ (occurs (mode_phrase (lit "TEXT")) stmt ->
      ~ occurs encoding_phrase stmt ->
      exists f,
        emitted unit (a, b) = [f]
        /\ issues_type f = Some (lit "OpenDatasetTextNoEncoding")
        /\ severity f = Some (lit "error")
        /\ message f = Some msg_no_encoding
        /\ suggestion f = Some sug_no_encoding)
  /\ (~ (occurs (mode_phrase (lit "TEXT")) stmt
          /\ ~ occurs encoding_phrase stmt) ->
      emitted unit (a, b) = []).
Proof.
  intros src stmt Hm Hmode. split; [apply scan_unit_findings|].
  apply search_MODE in Hmode. split.
  - intros Ht He. apply search_TEXT_MODE in Ht.
    rewrite <- search_ENCODING in He. apply not_true_false in He.
    destruct (emitted_text_no_encoding _ _ _ Hmode Ht He)
      as (f & E & K & M & S & L).
    exists f. split_and!; try done. apply L.
  - intros H. apply emitted_nothing; [done|].
    rewrite <- search_TEXT_MODE, <- search_ENCODING in H.
    fold src. fold stmt.
    destruct (search TEXT_MODE_RE stmt); [|by left].
    destruct (search ENCODING_RE stmt); [by right|].
    exfalso. apply H. by split.
Qed.

Lemma C2_witness :
  (exists f, emitted u_text_binary (0, 38) = [f]
             /\ issues_type f = Some (lit "OpenDatasetTextNoEncoding"))
  /\ emitted u_text_binary (39, 79) = [].
Proof.
  split.
  - destruct (C2_mode_present u_text_binary 0 38) as (_ & H & _).
    + vm_compute. left.
    + left. apply search_TEXT_MODE. vm_compute. reflexivity.
    + destruct H as (f & E & K & _).
      * apply search_TEXT_MODE. vm_compute. reflexivity.
      * intros H. apply search_ENCODING in H. vm_compute in H. discriminate H.
      * by exists f.
  - destruct (C2_mode_present u_text_binary 39 79) as (_ & _ & H).
    + vm_compute. right. left.
    + apply search_MODE. vm_compute. reflexivity.
    + apply H. intros [Ht _]. apply search_TEXT_MODE in Ht.
      vm_compute in Ht. discriminate Ht.
Defined.


Section Opening.

Implicit Types (prev : option char) (w rest s : str).

Lemma den_OPENING prev w rest :
  den OPENING_RE prev w rest <-> opening_phrase prev w rest.
Proof.
  unfold OPENING_RE, opening_phrase. cbn [den]. split.
  - intros (w1 & w2 & -> & [-> B1] & o & w4 & -> & Ho & ws & w6 & -> & Hws
            & d & w8 & -> & Hd & -> & B2).
    rewrite <- app_assoc in B1.
    apply at_boundary_next in B1;
      [|by rewrite head_app_cons, (ci_word_head _ _ Ho)
           by (by eapply ci_nonempty)].
    apply at_boundary_prev in B2; [|by rewrite (ci_word_last_of _ _ _ Hd)].
    exists o, ws, d. rewrite !app_nil_r. cbn [app]. by split_and!.
  - intros (o & ws & d & -> & Ho & Hws & Hd & B1 & B2).
    exists [], (o ++ ws ++ d). split; [done|]. split.
    { split; [done|]. rewrite <- !app_assoc. apply at_boundary_next; [|done].
      by rewrite head_app_cons, (ci_word_head _ _ Ho)
        by (by eapply ci_nonempty). }
    exists o, (ws ++ d). split; [done|]. split; [done|].
    exists ws, d. split; [done|]. split; [done|].
    exists d, []. split; [by rewrite app_nil_r|]. split; [done|].
    split; [done|]. apply at_boundary_prev; [|done].
    by rewrite (ci_word_last_of _ _ _ Hd).
Qed.

Lemma search_OPENING s :
  search OPENING_RE s = true <-> occurs opening_phrase s.
Proof. apply search_occurs, den_OPENING. Qed.

Lemma opening_phrase_rest prev w rest rest' :
  head rest = head rest' ->
  opening_phrase prev w rest -> opening_phrase prev w rest'.
Proof.
  intros E (o & ws & d & ? & ? & ? & ? & ? & ?). exists o, ws, d.
  rewrite <- E. by split_and!.
Qed.

Lemma opening_phrase_no_dot prev w rest :
  opening_phrase prev w rest -> DOT ∉ w.
Proof.
  intros (o & ws & d & -> & Ho & [_ Hws] & Hd & _).
  rewrite !elem_of_app. intros [H|[H|H]].
  - by apply (ci_no_dot _ _ Ho) in H; [|compute_done].
  - by apply all_space_no_dot in Hws.
  - by apply (ci_no_dot _ _ Hd) in H; [|compute_done].
Qed.

(** A statement found in a text puts the opening phrase in the text. *)
Lemma statement_opening (pre w post : str) :
  statement (last pre) w ->
  exists ph tail, w = ph ++ tail /\ opening_phrase (last pre) ph (tail ++ post)
                  /\ (exists body, tail = body ++ [DOT] /\ DOT ∉ body).
Proof.
  intros (ph & body & -> & Hph & Hbody).
  exists ph, (body ++ [DOT]). split; [done|]. split; [|by exists body].
  eapply opening_phrase_rest; [|done].
  symmetry. apply head_app_cons. by destruct body.
Qed.

Lemma finditer_STMT_opening s a b :
  (a, b) ∈ finditer STMT_RE s -> occurs opening_phrase s.
Proof.
  intros H. apply finditer_spec in H as (pre & w & post & -> & _ & _ & D).
  apply den_STMT in D.
  apply (statement_opening pre w post) in D as (ph & tail & -> & Hph & _).
  exists pre, ph, (tail ++ post). by rewrite <- app_assoc.
Qed.

End Opening.

(** C3. A unit whose code has no whole-word occurrence, in any case, of
    OPEN, white space, DATASET gets an empty findings list; [scan_unit]
    answers on every text, and on the empty text there is no match and no
    finding. *)
Theorem C3_no_opening_phrase (unit : Unit) :
  (~ occurs opening_phrase (or_empty (code unit)) ->
   findings (scan_unit unit) = Some [])
  /\ (or_empty (code unit) = [] ->
      finditer STMT_RE (or_empty (code unit)) = []
      /\ findings (scan_unit unit) = Some [])
  /\ (exists fs, findings (scan_unit unit) = Some fs).
Proof.
  split_and!.
  - intros H. rewrite scan_unit_findings.
    destruct (finditer STMT_RE (or_empty (code unit))) as [|[a b] l] eqn:E;
      [done|].
    exfalso. apply H, (finditer_STMT_opening _ a b). rewrite E. left.
  - intros E. rewrite scan_unit_findings, E. done.
  - rewrite scan_unit_findings. by eexists.
Qed.

Lemma C3_witness :
  findings (scan_unit u_clean) = Some []
  /\ findings (scan_unit u_empty) = Some [].
Proof.
  split.
  - destruct (C3_no_opening_phrase u_clean) as (H1 & _).
    apply H1. intros H. apply search_OPENING in H.
    vm_compute in H. discriminate H.
  - destruct (C3_no_opening_phrase u_empty) as (_ & H2 & _).
    apply H2. reflexivity.
Defined.

Section Located.

Implicit Types (unit : Unit) (f : Finding).

Lemma or_zero_eq (x : option Z) :
  or_zero x = match x with Some n => n | None => 0%Z end.
Proof.
  destruct x as [n|]; [|done]. simpl. destruct (Z.eqb_spec n 0); congruence.
Qed.

Lemma finditer_bounds r (s : str) a b :
  (a, b) ∈ finditer r s -> a <= b /\ b <= length s.
Proof.
  intros H. apply finditer_spec in H as (pre & w & post & -> & -> & -> & _).
  rewrite !length_app. lia.
Qed.

(** Every finding of a unit is the one emitted for some statement of
    the unit, and carries the location of that statement. *)
Lemma scan_unit_finding unit fs f :
  findings (scan_unit unit) = Some fs -> f ∈ fs ->
  exists a b, (a, b) ∈ finditer STMT_RE (or_empty (code unit))
              /\ emitted unit (a, b) = [f] /\ located unit a b f.
Proof.
  rewrite scan_unit_findings. intros [= <-] Hf.
  apply list_elem_of_bind in Hf as ([a b] & Hf & Hm).
  exists a, b. split; [done|].
  destruct (emitted_cases unit a b) as [E|(g & E & L)]; rewrite E in Hf.
  - by apply elem_of_nil in Hf.
  - apply list_elem_of_singleton in Hf as ->. by split.
Qed.

End Located.

(** C4. The starting line of a finding is the base offset of the unit
    ([start_line], or 0 when absent) plus the 1-based line of the match
    start in the text (newlines before the match start, plus 1); its
    ending line is the starting line plus the number of newlines in the
    extracted line snippet plus 1.  With [start_line = 10] and the code
    "A.", newline, "OPEN DATASET F.", newline, the starting line is 12. *)
Theorem C4_line_numbers :
  (forall (unit : Unit) (fs : list Finding) (f : Finding),
     findings (scan_unit unit) = Some fs -> f ∈ fs ->
     let src := or_empty (code unit) in
     let base := match start_line unit with Some n => n | None => 0%Z end in
     exists a b,
       (a, b) ∈ finditer STMT_RE src /\ emitted unit (a, b) = [f]
       /\ let line := (Z.of_nat (count NL (take a src)) + 1)%Z in
          let lines := (Z.of_nat (count NL (get_line_snippet src a b)) + 1)%Z in
          starting_line f = Some (base + line)%Z
          /\ ending_line f = Some (base + line + lines)%Z)
  /\ starting_line <$> scan_findings u_scenario = [Some 12%Z].
Proof.
  split; [|vm_compute; reflexivity].
  intros unit fs f Hfs Hf src base.
  destruct (scan_unit_finding _ _ _ Hfs Hf) as (a & b & Hm & E & L).
  exists a, b. split; [done|]. split; [done|].
  destruct L as (_ & _ & _ & _ & L1 & L2 & _).
  rewrite or_zero_eq in L1, L2. by split.
Qed.

Lemma C4_witness :
  starting_line <$> scan_findings u_two_lines = [Some 2%Z]
  /\ ending_line <$> scan_findings u_two_lines = [Some 4%Z].
Proof.
  destruct (scan_findings u_two_lines) as [|f [|g l]] eqn:E;
    try (vm_compute in E; discriminate E).
  destruct C4_line_numbers as [H _].
  destruct (H u_two_lines [f] f) as (a & b & Hm & _ & H1 & H2).
  - by rewrite scan_unit_scan_findings, E.
  - left.
  - vm_compute in Hm. apply list_elem_of_singleton in Hm. injection Hm as -> ->.
    cbn [fmap list_fmap]. rewrite H1, H2. split; vm_compute; reflexivity.
Defined.

(** C5. The snippet of a finding is the source line or lines around the
    match: the text from just after the last newline before the match
    start (or from the start of the text) to just before the first newline
    at or after the match end (or to the end of the text), with every
    newline replaced by a backslash and the letter n; the attached snippet
    has no newline. *)
Theorem C5_snippet (unit : Unit) (fs : list Finding) (f : Finding) :
  findings (scan_unit unit) = Some fs -> f ∈ fs ->
  let src := or_empty (code unit) in
  exists a b pre line post,
    (a, b) ∈ finditer STMT_RE src /\ emitted unit (a, b) = [f]
    /\ src = pre ++ line ++ post
    /\ length pre <= a /\ b <= length pre + length line
    /\ (pre = [] \/ last pre = Some NL)
    /\ (NL ∉ slice src (length pre) a)
    /\ (NL ∉ slice src b (length pre + length line))
    /\ (post = [] \/ head post = Some NL)
    /\ snippet f
       = Some (line ≫= fun c =>
                 if N.eqb c NL then [BACKSLASH; LETTER_N] else [c])
    /\ (forall s, snippet f = Some s -> NL ∉ s).
Proof.
  intros Hfs Hf src.
  destruct (scan_unit_finding _ _ _ Hfs Hf) as (a & b & Hm & E & L).
  destruct (finditer_bounds _ _ _ _ Hm) as [Hab Hb].
  destruct (get_line_snippet_spec src a b Hab Hb)
    as (pre & post & Hsrc & H1 & H2 & H3 & H4 & H5 & H6).
  destruct L as (_ & _ & _ & _ & _ & _ & _ & L).
  exists a, b, pre, (get_line_snippet src a b), post.
  split_and!; try done.
  - by rewrite L, replace_bind.
  - intros s Hs. rewrite L in Hs. injection Hs as <-.
    apply replace_removes. compute_done.
Qed.

Lemma C5_witness :
  snippet <$> scan_findings u_two_lines
  = [Some (lit "  open dataset f for output\n    in text mode. CLOSE DATASET f.")].
Proof.
  destruct (scan_findings u_two_lines) as [|f [|g l]] eqn:E;
    try (vm_compute in E; discriminate E).
  destruct (C5_snippet u_two_lines [f] f)
    as (a & b & pre & line & post & Hm & _ & Hsrc & Hpre & Hline & Hnl & _
        & Hend & Hpost & Hsnip & _).
  - by rewrite scan_unit_scan_findings, E.
  - left.
  - vm_compute in E. injection E as <-. reflexivity.
Defined.

Section Periods.

Implicit Types (pre rest : str).

(** A character absent from the tail of a text lies in its head. *)
Lemma split_before {A} (l1 l2 pre rest : list A) (x : A) :
  l1 ++ x :: l2 = pre ++ rest -> x ∉ rest -> length l1 < length pre.
Proof.
  intros E Hx. destruct (decide (length l1 < length pre)) as [|Hge]; [done|].
  exfalso. apply Hx. apply (list_elem_of_lookup_2 _ (length l1 - length pre)).
  rewrite <- lookup_app_r, <- E by lia. apply list_lookup_middle. done.
Qed.

Lemma statement_last_dot prev (w : str) :
  statement prev w ->
  exists ph body, w = ph ++ body ++ [DOT] /\ (DOT ∉ ph ++ body)
                  /\ opening_phrase prev ph (body ++ [DOT]).
Proof.
  intros (ph & body & -> & Hph & Hbody). exists ph, body.
  split; [done|]. split; [|done].
  rewrite elem_of_app. intros [H|H]; [|done].
  by apply opening_phrase_no_dot in Hph.
Qed.

End Periods.

(** C6. An occurrence of the opening phrase with no period after it up to
    the end of the text starts no match, and every match (hence every
    finding) lies wholly before it.  Every matched span starts at a
    whole-word occurrence, in any case, of the opening phrase, has no
    period before its last character, and its last character is the
    period: the first one after the opening phrase. *)
Theorem C6_statement_spans (src : str) :
  (forall a b, (a, b) ∈ finditer STMT_RE src ->
     exists pre ph body post,
       src = pre ++ (ph ++ body ++ [DOT]) ++ post
       /\ a = length pre /\ b = a + length (ph ++ body ++ [DOT])
       /\ slice src a b = ph ++ body ++ [DOT]
       /\ opening_phrase (last pre) ph (body ++ [DOT] ++ post)
       /\ (DOT ∉ ph ++ body))
  /\ (forall pre ph post,
        src = pre ++ ph ++ post ->
        opening_phrase (last pre) ph post -> DOT ∉ post ->
        (forall a b, (a, b) ∈ finditer STMT_RE src ->
           a < length pre /\ b <= length pre)
        /\ (forall unit f,
              or_empty (code unit) = src -> f ∈ scan_findings unit ->
              exists a b, (a, b) ∈ finditer STMT_RE src /\ b <= length pre
                          /\ emitted unit (a, b) = [f])).
Proof.
  assert (Hspan : forall a b, (a, b) ∈ finditer STMT_RE src ->
     exists pre ph body post,
       src = pre ++ (ph ++ body ++ [DOT]) ++ post
       /\ a = length pre /\ b = a + length (ph ++ body ++ [DOT])
       /\ slice src a b = ph ++ body ++ [DOT]
       /\ opening_phrase (last pre) ph (body ++ [DOT] ++ post)
       /\ (DOT ∉ ph ++ body)).
  { intros a b H.
    apply finditer_spec in H as (pre & w & post & -> & -> & -> & D).
    apply den_STMT, statement_last_dot in D as (ph & body & -> & Hno & Hph).
    exists pre, ph, body, post. split_and!; try done.
    - apply slice_mid.
    - eapply opening_phrase_rest; [|done]. by destruct body. }
  assert (Hend : forall pre ph post,
        src = pre ++ ph ++ post ->
        opening_phrase (last pre) ph post -> DOT ∉ post ->
        forall a b, (a, b) ∈ finditer STMT_RE src ->
           a < length pre /\ b <= length pre).
  { intros pre ph post E Hph Hpost a b H.
    destruct (Hspan a b H) as (pre' & ph' & body & post' & E' & -> & -> & _).
    assert (length (pre' ++ ph' ++ body) < length pre) as Hlt.
    { apply (split_before _ post' _ (ph ++ post) DOT).
      - rewrite <- E, E', <- !app_assoc. done.
      - rewrite elem_of_app. intros [Hd|Hd]; [|done].
        by apply opening_phrase_no_dot in Hph. }
    rewrite !length_app in *. simpl. lia. }
  split; [done|]. intros pre ph post E Hph Hpost.
  split; [by eapply Hend|]. intros unit f Hsrc Hf.
  destruct (scan_unit_finding unit _ f (scan_unit_scan_findings unit) Hf)
    as (a & b & Hm & Hem & _).
  rewrite Hsrc in Hm. exists a, b. split; [done|]. split; [|done].
  by eapply Hend.
Qed.

Lemma C6_witness :
  (forall a b, (a, b) ∈ finditer STMT_RE (or_empty (code u_unfinished)) ->
     a < 31 /\ b <= 31)
  /\ scan_findings u_unfinished = [].
Proof.
  destruct (C6_statement_spans (or_empty (code u_unfinished))) as [_ H].
  destruct (H (lit "OPEN DATASET a IN BINARY MODE. ") (lit "OPEN DATASET")
              (lit " b FOR INPUT")) as [H1 _].
  - reflexivity.
  - exists (lit "OPEN"), (lit " "), (lit "DATASET").
    split_and!; try reflexivity. split; [done|]. repeat constructor.
  - compute_done.
  - split; [exact H1 | vm_compute; reflexivity].
Defined.

(** ** Units as objects *)

Section Objects.

Implicit Types (h : gmap nat Unit) (l : nat) (u : Unit).

Lemma fresh_unused h : h !! fresh (dom h) = None.
Proof. apply not_elem_of_dom, is_fresh. Qed.

(** A call allocates one object, holding the scanned unit, and touches
    nothing else. *)
Lemma scan_unit_ref_spec h l u :
  h !! l = Some u ->
  scan_unit_ref l h
  = Some (fresh (dom h), <[fresh (dom h) := scan_unit u]> h).
Proof.
  intros H. unfold scan_unit_ref, new_unit. rewrite H. cbn.
  by rewrite alter_insert_eq.
Qed.

Lemma scan_unit_idem u : scan_unit (scan_unit u) = scan_unit u.
Proof. reflexivity. Qed.

End Objects.

(** C7. [scan_unit] does not change the unit it is given: after the call
    the input object holds the same value in every field, [findings]
    included; the result is a new object, whose fields other than
    [findings] equal the input's and whose [findings] is the computed
    list; no other object changes. *)
Theorem C7_input_untouched (h : gmap nat Unit) (l : nat) (u : Unit) :
  h !! l = Some u ->
  exists l' h' u',
    scan_unit_ref l h = Some (l', h')
    /\ h' !! l = Some u
    /\ l' <> l /\ h !! l' = None
    /\ (forall r, r <> l' -> h' !! r = h !! r)
    /\ h' !! l' = Some u'
    /\ pgm_name u' = pgm_name u /\ inc_name u' = inc_name u
    /\ type u' = type u /\ name u' = name u
    /\ start_line u' = start_line u /\ end_line u' = end_line u
    /\ code u' = code u
    /\ findings u' = Some (scan_findings u).
Proof.
  intros H. pose proof (fresh_unused h) as Hfresh.
  assert (fresh (dom h) <> l) as Hne by (intros E; congruence).
  exists (fresh (dom h)), (<[fresh (dom h) := scan_unit u]> h), (scan_unit u).
  split; [by apply scan_unit_ref_spec|].
  split; [by rewrite lookup_insert_ne|].
  split; [done|]. split; [done|].
  split; [intros r Hr; by rewrite lookup_insert_ne|].
  split; [by rewrite lookup_insert_eq|]. by split_and!.
Qed.

Lemma C7_witness :
  exists l' h',
    scan_unit_ref 7 {[ 7 := u_no_mode ]} = Some (l', h')
    /\ h' !! 7 = Some u_no_mode /\ l' <> 7.
Proof.
  destruct (C7_input_untouched {[ 7 := u_no_mode ]} 7 u_no_mode)
    as (l' & h' & u' & H1 & H2 & H3 & _).
  - apply lookup_singleton_eq.
  - by exists l', h'.
Defined.

(** C8. Scanning is a function of the code and metadata of the unit:
    scanning the output of a scan again gives the same findings (and the
    same unit), and two calls on equal units, whatever the store they run
    in, return equal units. *)
Theorem C8_idempotent (unit : Unit) :
  findings (scan_unit (scan_unit unit)) = findings (scan_unit unit)
  /\ scan_unit (scan_unit unit) = scan_unit unit
  /\ (forall (h1 h2 : gmap nat Unit) (l1 l2 : nat),
        h1 !! l1 = Some unit -> h2 !! l2 = Some unit ->
        exists o1 g1 o2 g2 out,
          scan_unit_ref l1 h1 = Some (o1, g1)
          /\ scan_unit_ref l2 h2 = Some (o2, g2)
          /\ g1 !! o1 = Some out /\ g2 !! o2 = Some out)
  /\ (forall (h : gmap nat Unit) (l : nat),
        h !! l = Some unit ->
        exists o1 g1 o2 g2 out,
          scan_unit_ref l h = Some (o1, g1)
          /\ scan_unit_ref l g1 = Some (o2, g2)
          /\ g1 !! o1 = Some out /\ g2 !! o2 = Some out).
Proof.
  split; [by rewrite scan_unit_idem|]. split; [apply scan_unit_idem|].
  assert (Hdet : forall (h1 h2 : gmap nat Unit) (l1 l2 : nat),
        h1 !! l1 = Some unit -> h2 !! l2 = Some unit ->
        exists o1 g1 o2 g2 out,
          scan_unit_ref l1 h1 = Some (o1, g1)
          /\ scan_unit_ref l2 h2 = Some (o2, g2)
          /\ g1 !! o1 = Some out /\ g2 !! o2 = Some out).
  { intros h1 h2 l1 l2 H1 H2.
    exists (fresh (dom h1)), (<[fresh (dom h1) := scan_unit unit]> h1),
           (fresh (dom h2)), (<[fresh (dom h2) := scan_unit unit]> h2),
           (scan_unit unit).
    split; [by apply scan_unit_ref_spec|].
    split; [by apply scan_unit_ref_spec|].
    by rewrite !lookup_insert_eq. }
  split; [done|]. intros h l H.
  destruct (Hdet h (<[fresh (dom h) := scan_unit unit]> h) l l H)
    as (o1 & g1 & o2 & g2 & out & E1 & E2 & ? & ?).
  - rewrite lookup_insert_ne; [done|].
    intros E. pose proof (fresh_unused h). congruence.
  - rewrite (scan_unit_ref_spec _ _ _ H) in E1. injection E1 as <- <-.
    exists (fresh (dom h)), (<[fresh (dom h) := scan_unit unit]> h), o2, g2, out.
    split; [by apply scan_unit_ref_spec|]. by split_and!.
Qed.

Lemma C8_witness :
  exists o1 g1 o2 g2 out,
    scan_unit_ref 7 {[ 7 := u_text_binary ]} = Some (o1, g1)
    /\ scan_unit_ref 3 {[ 3 := u_text_binary; 5 := u_no_mode ]} = Some (o2, g2)
    /\ g1 !! o1 = Some out /\ g2 !! o2 = Some out.
Proof.
  destruct (C8_idempotent u_text_binary) as (_ & _ & H & _).
  apply H.
  - apply lookup_singleton_eq.
  - apply lookup_insert_eq.
Defined.

Section Batch.

Lemma fold_batch (units : list Unit) (acc : list Unit) :
  fold_left
    (fun results u =>
       let res := scan_unit u in
       if truthy (findings res) then results ++ [res] else results)
    units acc
  = acc ++ List.filter (fun r => truthy (findings r)) (scan_unit <$> units).
Proof.
  revert acc. induction units as [|u units IH]; intros acc;
    cbn [fold_left fmap list_fmap List.filter].
  - by rewrite app_nil_r.
  - rewrite IH. destruct (truthy (findings (scan_unit u))); [|done].
    by rewrite <- app_assoc.
Qed.

Lemma truthy_findings (u : Unit) :
  truthy (findings (scan_unit u)) = true <-> scan_findings u <> [].
Proof.
  rewrite scan_unit_scan_findings. simpl. by destruct (scan_findings u).
Qed.

End Batch.


(** C9. The batch operation scans the units in order and keeps exactly
    the scanned units whose findings list is not empty; the single-unit
    operation returns the scanned unit whatever its findings.  For three
    units of which only the second has a defect, the batch result is the
    one-element list of the second unit, scanned. *)
Theorem C9_batch :
  (forall units : list Unit,
     scan_rule111_array units
     = List.filter (fun r => truthy (findings r)) (scan_unit <$> units))
  /\ (forall r : Unit,
        truthy (findings r) = true <->
        exists f fs, findings r = Some (f :: fs))
  /\ (forall unit : Unit, scan_rule111_single unit = scan_unit unit)
  /\ (forall u1 u2 u3 : Unit,
        scan_findings u1 = [] -> scan_findings u2 <> [] ->
        scan_findings u3 = [] ->
        scan_rule111_array [u1; u2; u3] = [scan_unit u2])
  /\ scan_rule111_array u_batch = [scan_unit u_no_mode].
Proof.
  split_and!.
  - intros units. unfold scan_rule111_array. by rewrite fold_batch.
  - intros r. destruct (findings r) as [[|f fs]|]; simpl; split; try done.
    + by intros (? & ? & ?).
    + intros _. by exists f, fs.
    + by intros (? & ? & ?).
  - done.
  - intros u1 u2 u3 H1 H2 H3. unfold scan_rule111_array.
    rewrite fold_batch. cbn [fmap list_fmap List.filter app].
    apply truthy_findings in H2. rewrite H2.
    rewrite !scan_unit_scan_findings, H1, H3. done.
  - vm_compute. reflexivity.
Qed.

Lemma C9_witness :
  scan_rule111_array [u_empty; u_text_binary; u_encoded]
  = [scan_unit u_text_binary].
Proof.
  destruct C9_batch as (_ & _ & _ & H & _). apply H.
  - vm_compute. reflexivity.
  - vm_compute. discriminate.
  - vm_compute. reflexivity.
Defined.

Section Order.

Lemma bind_at_most_one {A B} (g : A -> list B) (l : list A) :
  (forall m, length (g m) <= 1) ->
  exists ms, ms `sublist_of` l /\ Forall2 (fun f m => g m = [f]) (l ≫= g) ms.
Proof.
  intros Hg. induction l as [|m l (ms & Hsub & Hall)].
  - exists []. split; constructor.
  - specialize (Hg m). cbn. destruct (g m) as [|f [|f' fs]] eqn:E.
    + exists ms. split; [by apply sublist_cons | done].
    + exists (m :: ms). split; [by apply sublist_skip|]. by constructor.
    + simpl in Hg. lia.
Qed.

Lemma sublist_sorted {A} (R : relation A) (ms l : list A) :
  ms `sublist_of` l -> StronglySorted R l -> StronglySorted R ms.
Proof.
  induction 1 as [|x l1 l2 Hsub IH|x l1 l2 Hsub IH]; intros Hs.
  - constructor.
  - apply StronglySorted_cons in Hs as [Hx Hs].
    apply StronglySorted_cons. split; [|by apply IH].
    rewrite Forall_forall in Hx |- *. intros y Hy.
    apply Hx. by eapply elem_of_sublist.
  - apply StronglySorted_cons in Hs as [_ Hs]. by apply IH.
Qed.

Lemma emitted_at_most_one (unit : Unit) (m : nat * nat) :
  length (emitted unit m) <= 1.
Proof.
  destruct m as [a b].
  destruct (emitted_cases unit a b) as [-> | (f & -> & _)]; simpl; lia.
Qed.

End Order.

(** C10. The output of [scan_unit] does not depend on the [findings] of
    its input: two units that agree on every other field have the same
    output.  The [findings] of the output is always a list, never absent.
    Each matched statement contributes at most one finding, and the
    findings follow the statements they come from in increasing order of
    start offset. *)
Theorem C10_findings_shape (unit : Unit) :
  (forall other : Unit,
     pgm_name other = pgm_name unit -> inc_name other = inc_name unit ->
     type other = type unit -> name other = name unit ->
     start_line other = start_line unit -> end_line other = end_line unit ->
     code other = code unit ->
     scan_unit other = scan_unit unit)
  /\ findings (scan_unit unit) = Some (scan_findings unit)
  /\ (forall m, length (emitted unit m) <= 1)
  /\ exists ms,
      ms `sublist_of` finditer STMT_RE (or_empty (code unit))
      /\ StronglySorted before ms
      /\ Forall2 (fun f m => emitted unit m = [f]) (scan_findings unit) ms.
Proof.
  split_and!.
  - intros [] ? ? ? ? ? ? ?. destruct unit. simpl in *. by subst.
  - done.
  - apply emitted_at_most_one.
  - destruct (bind_at_most_one (emitted unit)
                (finditer STMT_RE (or_empty (code unit)))
                (emitted_at_most_one unit)) as (ms & Hsub & Hall).
    exists ms. split; [done|]. split.
    + eapply sublist_sorted; [done | apply finditer_sorted].
    + by rewrite scan_findings_bind.
Qed.

Lemma C10_witness :
  scan_unit (set_findings [] u_no_mode) = scan_unit u_no_mode.
Proof.
  destruct (C10_findings_shape u_no_mode) as (H & _).
  apply H; reflexivity.
Defined.

(** * Further properties of the code *)

(** ** The statement locator *)

Section Locator.

Implicit Types (r : regex) (prev : option char) (s w pre post rest : str).

Lemma first_dot_unique (x x' y y' : str) :
  x ++ DOT :: y = x' ++ DOT :: y' -> DOT ∉ x -> DOT ∉ x' -> x = x' /\ y = y'.
Proof.
  revert x'. induction x as [|c x IH]; intros [|c' x'] E Hx Hx'.
  - by injection E.
  - injection E as <- _. exfalso. apply Hx'. left.
  - injection E as -> _. exfalso. apply Hx. left.
  - injection E as <- E. apply not_elem_of_cons in Hx as [_ Hx].
    apply not_elem_of_cons in Hx' as [_ Hx'].
    destruct (IH _ E Hx Hx') as [-> ->]. done.
Qed.

(** At the start of a statement the pattern matches the statement and
    nothing else. *)
Lemma match_at_STMT prev w rest :
  statement prev w -> match_at STMT_RE prev (w ++ rest) = Some (length w).
Proof.
  intros Hw. pose proof Hw as D. apply (den_STMT prev w rest) in D.
  destruct (match_at_complete _ _ _ _ D) as [n Hn]. rewrite Hn. f_equal.
  destruct (match_at_sound _ _ _ _ Hn) as (w' & rest' & E & D' & ->).
  apply den_STMT in D'.
  apply statement_last_dot in Hw as (ph & body & -> & Hno & _).
  apply statement_last_dot in D' as (ph' & body' & -> & Hno' & _).
  rewrite !(app_assoc _ _ [DOT]), <- !(app_assoc _ [DOT]) in E. simpl in E.
  destruct (first_dot_unique _ _ _ _ E Hno Hno') as [E' _].
  rewrite !app_assoc, E'. done.
Qed.

Lemma statement_length prev w : statement prev w -> 13 <= length w.
Proof.
  intros (ph & body & -> & (o & ws & d & -> & Ho & [Hne _] & Hd & _) & _).
  apply ci_length in Ho, Hd. rewrite !length_app, Ho, Hd.
  destruct ws; [done|]. simpl. lia.
Qed.

Lemma match_at_STMT_inv prev s n :
  match_at STMT_RE prev s = Some n ->
  13 <= n /\ n <= length s /\ statement prev (take n s)
  /\ last (take n s) = Some DOT.
Proof.
  intros H. destruct (match_at_sound _ _ _ _ H) as (w & rest & -> & D & ->).
  apply den_STMT in D. rewrite take_app_length, length_app.
  split; [by eapply statement_length|]. split; [lia|]. split; [done|].
  destruct D as (ph & body & -> & _). by rewrite !app_assoc, last_snoc.
Qed.

(** A pattern whose match at a position is determined by its meaning
    reports every occurrence, unless an earlier reported match runs over
    the start of the occurrence. *)
Lemma finditer_from_complete r :
  (forall prev w rest,
     den r prev w rest -> match_at r prev (w ++ rest) = Some (length w)) ->
  forall pre prev w post pos skip,
    den r (last_of prev pre) w post -> skip <= length pre ->
    (pos + length pre, pos + length pre + length w)
      ∈ finditer_from r prev (pre ++ w ++ post) pos skip
    \/ exists a b, (a, b) ∈ finditer_from r prev (pre ++ w ++ post) pos skip
                   /\ a < pos + length pre /\ pos + length pre < b.
Proof.
  intros Hdet. induction pre as [|c pre IH]; intros prev w post pos skip D Hs.
  - left. simpl in Hs. assert (skip = 0) as -> by lia.
    rewrite last_of_nil in D. pose proof (Hdet _ _ _ D) as M.
    simpl. rewrite !Nat.add_0_r.
    destruct (w ++ post) as [|c s]; simpl; rewrite M; left.
  - rewrite last_of_cons in D. simpl in Hs.
    assert (Htail : forall k, k <= length pre ->
      (pos + length (c :: pre), pos + length (c :: pre) + length w)
        ∈ finditer_from r (Some c) (pre ++ w ++ post) (S pos) k
      \/ exists a b, (a, b) ∈ finditer_from r (Some c) (pre ++ w ++ post) (S pos) k
                     /\ a < pos + length (c :: pre) /\ pos + length (c :: pre) < b).
    { intros k Hk. simpl.
      replace (pos + S (length pre)) with (S pos + length pre) by lia.
      by apply IH. }
    destruct skip as [|skip]; cbn [app finditer_from]; [|apply Htail; lia].
    destruct (match_at r prev (c :: pre ++ w ++ post)) as [n|] eqn:M.
    + destruct (decide (pred n <= length pre)) as [Hn|Hn].
      * destruct (Htail _ Hn) as [H|(a & b & H & ?)].
        -- left. by right.
        -- right. exists a, b. split; [by right | done].
      * right. exists pos, (pos + n). split; [left|]. simpl. lia.
    + apply Htail. lia.
Qed.

Lemma finditer_STMT_length prev s pos skip :
  13 * length (finditer_from STMT_RE prev s pos skip) <= length s - skip.
Proof.
  revert prev pos skip. induction s as [|c s IH]; intros prev pos skip.
  - destruct skip; simpl; [|lia].
    destruct (match_at STMT_RE prev []) as [n|] eqn:M; simpl; [|lia].
    apply match_at_STMT_inv in M. simpl in M. lia.
  - destruct skip as [|skip]; cbn [finditer_from].
    + destruct (match_at STMT_RE prev (c :: s)) as [n|] eqn:M.
      * apply match_at_STMT_inv in M as (Hn & Hle & _).
        specialize (IH (Some c) (S pos) (pred n)). simpl in *. lia.
      * specialize (IH (Some c) (S pos) 0). simpl in *. lia.
    + specialize (IH (Some c) (S pos) skip). simpl in *. lia.
Qed.

Lemma count_app c s1 s2 : count c (s1 ++ s2) = count c s1 + count c s2.
Proof.
  induction s1 as [|x s1 IH]; simpl; [done|].
  destruct (N.eqb x c); simpl; by rewrite IH.
Qed.

Lemma count_last c s : last s = Some c -> 1 <= count c s.
Proof.
  intros H. apply last_Some in H as [s' ->]. rewrite count_app. simpl.
  rewrite N.eqb_refl. lia.
Qed.

Lemma count_take_drop c s n : count c s = count c (take n s) + count c (drop n s).
Proof. by rewrite <- count_app, take_drop. Qed.

Lemma finditer_STMT_dots prev s pos skip :
  length (finditer_from STMT_RE prev s pos skip) <= count DOT (drop skip s).
Proof.
  revert prev pos skip. induction s as [|c s IH]; intros prev pos skip.
  - destruct skip; simpl; [|lia].
    destruct (match_at STMT_RE prev []) as [n|] eqn:M; simpl; [|lia].
    apply match_at_STMT_inv in M. simpl in M. lia.
  - destruct skip as [|skip]; cbn [finditer_from]; [|apply IH].
    destruct (match_at STMT_RE prev (c :: s)) as [n|] eqn:M.
    + apply match_at_STMT_inv in M as (Hn & Hle & _ & Hlast).
      apply (count_last DOT) in Hlast.
      rewrite drop_0, (count_take_drop DOT (c :: s) n).
      destruct n as [|n]; [lia|]. cbn [length pred drop].
      specialize (IH (Some c) (S pos) n). lia.
    + rewrite drop_0. specialize (IH (Some c) (S pos) 0).
      rewrite drop_0 in IH. simpl. destruct (N.eqb c DOT); lia.
Qed.

Lemma length_bind_at_most_one {A B} (g : A -> list B) (l : list A) :
  (forall m, length (g m) <= 1) -> length (l ≫= g) <= length l.
Proof.
  intros Hg. induction l as [|m l IH]; [done|].
  cbn. rewrite length_app. specialize (Hg m). lia.
Qed.

End Locator.

(** X1. The locator misses no statement: wherever the text holds a
    statement (opening phrase as whole words, no period, then a period),
    [finditer] reports exactly that span, unless a span reported earlier
    starts before it and runs over its start. *)
Theorem X1_locator_complete (pre w post : str) :
  statement (last pre) w ->
  (length pre, length pre + length w) ∈ finditer STMT_RE (pre ++ w ++ post)
  \/ exists a b, (a, b) ∈ finditer STMT_RE (pre ++ w ++ post)
                 /\ a < length pre /\ length pre < b.
Proof.
  intros Hw. unfold finditer.
  apply (finditer_from_complete STMT_RE) with (pos := 0) (skip := 0).
  - intros prev w' rest D. apply match_at_STMT. by apply den_STMT in D.
  - rewrite last_of_None. by apply den_STMT.
  - lia.
Qed.

Lemma X1_witness :
  (3, 18) ∈ finditer STMT_RE (lit "A. OPEN DATASET f. B.").
Proof.
  destruct (X1_locator_complete (lit "A. ") (lit "OPEN DATASET f.") (lit " B."))
    as [H|(a & b & H & Ha & Hb)].
  - exists (lit "OPEN DATASET"), (lit " f"). split; [reflexivity|].
    split; [|compute_done].
    exists (lit "OPEN"), (lit " "), (lit "DATASET").
    split_and!; try reflexivity. split; [done|]. repeat constructor.
  - exact H.
  - vm_compute in H. apply list_elem_of_singleton in H.
    injection H as -> ->. simpl in Ha. lia.
Defined.

(** X2. Every span the locator reports lies within the text and is at
    least 13 characters long (OPEN, a white-space character, DATASET and
    the period); the spans come in increasing order and do not overlap, so
    a text of [n] characters has at most [n / 13] of them. *)
Theorem X2_spans_shape (s : str) :
  (forall a b, (a, b) ∈ finditer STMT_RE s -> a + 13 <= b /\ b <= length s)
  /\ StronglySorted before (finditer STMT_RE s)
  /\ 13 * length (finditer STMT_RE s) <= length s.
Proof.
  split_and!.
  - intros a b H. apply finditer_spec in H as (pre & w & post & -> & -> & -> & D).
    apply den_STMT, statement_length in D. rewrite !length_app. lia.
  - apply finditer_sorted.
  - pose proof (finditer_STMT_length None s 0 0). unfold finditer. lia.
Qed.

Lemma X2_witness :
  0 + 13 <= 31 /\ 31 <= length (or_empty (code u_no_mode)).
Proof.
  destruct (X2_spans_shape (or_empty (code u_no_mode))) as (H & _).
  apply H. vm_compute. left.
Defined.

(** X3. A unit has at most one finding per located statement, and at most
    as many located statements as its code has periods. *)
Theorem X3_findings_count (unit : Unit) :
  length (scan_findings unit)
  <= length (finditer STMT_RE (or_empty (code unit)))
  /\ length (finditer STMT_RE (or_empty (code unit)))
     <= count DOT (or_empty (code unit)).
Proof.
  split.
  - rewrite scan_findings_bind. apply length_bind_at_most_one.
    apply emitted_at_most_one.
  - pose proof (finditer_STMT_dots None (or_empty (code unit)) 0 0) as H.
    by rewrite drop_0 in H.
Qed.

(** ** Findings: identity, lines and snippet *)

Section FindingFields.

Implicit Types (unit : Unit) (f : Finding) (text s : str).

Lemma emitted_kinds unit a b f :
  f ∈ emitted unit (a, b) ->
  located unit a b f
  /\ ((issues_type f = Some (lit "OpenDatasetNoMode")
       /\ message f = Some msg_no_mode /\ suggestion f = Some sug_no_mode)
      \/ (issues_type f = Some (lit "OpenDatasetTextNoEncoding")
          /\ message f = Some msg_no_encoding
          /\ suggestion f = Some sug_no_encoding)).
Proof.
  intros Hf.
  destruct (search MODE_RE (slice (or_empty (code unit)) a b)) eqn:H1.
  - destruct (search TEXT_MODE_RE (slice (or_empty (code unit)) a b)) eqn:H2.
    + destruct (search ENCODING_RE (slice (or_empty (code unit)) a b)) eqn:H3.
      * rewrite emitted_nothing in Hf by auto. by apply elem_of_nil in Hf.
      * destruct (emitted_text_no_encoding _ _ _ H1 H2 H3)
          as (g & E & ? & ? & ? & ?).
        rewrite E in Hf. apply list_elem_of_singleton in Hf as ->. auto.
    + rewrite emitted_nothing in Hf by auto. by apply elem_of_nil in Hf.
  - destruct (emitted_no_mode _ _ _ H1) as (g & E & ? & ? & ? & ?).
    rewrite E in Hf. apply list_elem_of_singleton in Hf as ->. auto.
Qed.

Lemma count_none c s : c ∉ s -> count c s = 0.
Proof.
  induction s as [|x s IH]; [done|]. rewrite not_elem_of_cons.
  intros [Hne Hs]. simpl. destruct (N.eqb_spec x c); [congruence|auto].
Qed.

Lemma count_le_take c s n m :
  n <= m -> count c (take n s) <= count c (take m s).
Proof.
  intros H. replace m with (n + (m - n)) by lia.
  rewrite <- take_take_drop, count_app. lia.
Qed.

Lemma slice_cat s a b c :
  a <= b -> b <= c -> slice s a c = slice s a b ++ slice s b c.
Proof.
  intros Hab Hbc. unfold slice.
  replace (c - a) with ((b - a) + (c - b)) by lia.
  rewrite <- take_take_drop, drop_drop. do 3 f_equal. lia.
Qed.

Lemma count_take_slice c s a b :
  a <= b -> count c (take b s) = count c (take a s) + count c (slice s a b).
Proof.
  intros H. unfold slice. replace b with (a + (b - a)) at 1 by lia.
  by rewrite <- take_take_drop, count_app.
Qed.

(** The snippet is the span with the rest of its first line before it
    and the rest of its last line after it. *)
Lemma get_line_snippet_around text a b :
  a <= b -> b <= length text ->
  exists x y,
    get_line_snippet text a b = x ++ slice text a b ++ y
    /\ (NL ∉ x) /\ (NL ∉ y)
    /\ count NL (take a text) + count NL (slice text a b) + count NL y
       + count NL (drop (length (take a text ++ slice text a b ++ y)) text)
       = count NL text.
Proof.
  intros Hab Hb.
  destruct (get_line_snippet_spec text a b Hab Hb)
    as (pre & post & E & H1 & H2 & _ & H4 & H5 & _).
  set (snip := get_line_snippet text a b) in *.
  assert (snip = slice text (length pre) (length pre + length snip)) as Hs.
  { rewrite E at 1. by rewrite slice_mid. }
  exists (slice text (length pre) a), (slice text b (length pre + length snip)).
  split; [|split; [done|split; [done|]]].
  - rewrite Hs at 1. rewrite (slice_cat _ _ a) by lia.
    by rewrite (slice_cat _ a b) by lia.
  - assert (length text = length pre + length snip + length post) as Hlen.
    { rewrite E at 1. rewrite !length_app. lia. }
    rewrite !length_app, length_take_le, !length_slice by lia.
    replace (a + (b - a + (length pre + length snip - b)))
      with (length pre + length snip) by lia.
    rewrite <- (count_take_slice NL text a b) by lia.
    rewrite <- (count_take_slice NL text b) by lia.
    by rewrite <- count_take_drop.
Qed.

Lemma replace_app c by_ s1 s2 :
  replace c by_ (s1 ++ s2) = replace c by_ s1 ++ replace c by_ s2.
Proof.
  induction s1 as [|x s1 IH]; simpl; [done|]. by rewrite IH, app_assoc.
Qed.

Lemma replace_none c by_ s : c ∉ s -> replace c by_ s = s.
Proof.
  induction s as [|x s IH]; [done|]. rewrite not_elem_of_cons.
  intros [Hne Hs]. simpl. rewrite IH by done.
  by destruct (N.eqb_spec x c); [congruence|].
Qed.

Lemma replace_length c by_ s :
  length (replace c by_ s) + count c s = length s + count c s * length by_.
Proof.
  induction s as [|x s IH]; simpl; [done|].
  rewrite length_app. destruct (N.eqb x c); simpl; lia.
Qed.

Lemma sorted_transfer {A B} (P : A -> B -> Prop) (R : relation B)
    (Q : relation A) (l : list A) (k : list B) :
  (forall x y m n, P x m -> P y n -> R m n -> Q x y) ->
  Forall2 P l k -> StronglySorted R k -> StronglySorted Q l.
Proof.
  intros HQ H. induction H as [|x m l k Hx Hl IH]; intros Hs; [constructor|].
  apply StronglySorted_cons in Hs as [Hm Hs].
  apply StronglySorted_cons. split; [|by apply IH].
  clear IH Hs. induction Hl as [|y n l k Hy Hl IH]; [constructor|].
  apply Forall_cons in Hm as [Hmn Hm]. constructor; [by eapply HQ|by apply IH].
Qed.

End FindingFields.

(** X4. Every finding echoes the identity of its unit (program, include,
    kind and block name), has severity [error], and is of one of the two
    kinds, each with its own fixed message and suggestion. *)
Theorem X4_finding_identity (unit : Unit) (fs : list Finding) (f : Finding) :
  findings (scan_unit unit) = Some fs -> f ∈ fs ->
  prog_name f = Some (pgm_name unit)
  /\ incl_name f = Some (inc_name unit)
  /\ types f = Some (type unit)
  /\ blockname f = name unit
  /\ severity f = Some (lit "error")
  /\ ((issues_type f = Some (lit "OpenDatasetNoMode")
       /\ message f = Some msg_no_mode /\ suggestion f = Some sug_no_mode)
      \/ (issues_type f = Some (lit "OpenDatasetTextNoEncoding")
          /\ message f = Some msg_no_encoding
          /\ suggestion f = Some sug_no_encoding)).
Proof.
  intros Hfs Hf.
  destruct (scan_unit_finding _ _ _ Hfs Hf) as (a & b & _ & E & _).
  destruct (emitted_kinds unit a b f) as [L K]; [rewrite E; left|].
  destruct L as (? & ? & ? & ? & _ & _ & ? & _). by split_and!.
Qed.

Lemma X4_witness :
  Forall (fun f => prog_name f = Some (lit "ZPROG")
                   /\ severity f = Some (lit "error"))
         (scan_findings u_text_binary).
Proof.
  apply Forall_forall. intros f Hf.
  destruct (X4_finding_identity u_text_binary (scan_findings u_text_binary) f)
    as (H1 & _ & _ & _ & H5 & _); [reflexivity | exact Hf |].
  split; [exact H1 | exact H5].
Defined.

(** X5. The lines of every finding lie within the unit: the starting line
    is between the first and the last line of the code (counted from the
    base offset), and the ending line is after the starting line and at
    most one past the last line.  The findings are ordered by line: each
    starts no later than the next, and the last line it covers is no later
    than the first line of the next. *)
Theorem X5_line_bounds (unit : Unit) :
  let src := or_empty (code unit) in
  let base := match start_line unit with Some n => n | None => 0%Z end in
  Forall (fun f =>
            exists sl el,
              starting_line f = Some sl /\ ending_line f = Some el
              /\ (base + 1 <= sl)%Z
              /\ (sl <= base + Z.of_nat (count NL src) + 1)%Z
              /\ (sl < el)%Z
              /\ (el <= base + Z.of_nat (count NL src) + 2)%Z)
         (scan_findings unit)
  /\ StronglySorted lines_before (scan_findings unit).
Proof.
  intros src base.
  assert (Hlines : forall a b f,
    (a, b) ∈ finditer STMT_RE src -> emitted unit (a, b) = [f] ->
    starting_line f = Some (base + (Z.of_nat (count NL (take a src)) + 1))%Z
    /\ ending_line f = Some (base + (Z.of_nat (count NL (take b src)) + 2))%Z
    /\ a <= b /\ count NL (take b src) <= count NL src).
  { intros a b f Hm E.
    destruct (emitted_kinds unit a b f) as [L _]; [rewrite E; left|].
    destruct L as (_ & _ & _ & _ & L1 & L2 & _).
    rewrite or_zero_eq in L1, L2. fold src base in L1, L2.
    destruct (finditer_bounds _ _ _ _ Hm) as [Hab Hb].
    destruct (get_line_snippet_around src a b Hab Hb) as (x & y & Hs & Hx & Hy & _).
    split; [by rewrite L1|]. split.
    - rewrite L2, Hs, !count_app, (count_none _ _ Hx), (count_none _ _ Hy).
      rewrite (count_take_slice NL src a b) by done. f_equal. lia.
    - split; [done|]. rewrite (count_take_drop NL src b). lia. }
  split.
  - apply Forall_forall. intros f Hf.
    destruct (scan_unit_finding unit _ f (scan_unit_scan_findings unit) Hf)
      as (a & b & Hm & E & _).
    destruct (Hlines a b f Hm E) as (H1 & H2 & Hab & Hle).
    pose proof (count_le_take NL src a b Hab).
    eexists _, _. split; [exact H1|]. split; [exact H2|]. lia.
  - destruct (bind_at_most_one (emitted unit) (finditer STMT_RE src)
                (emitted_at_most_one unit)) as (ms & Hsub & Hall).
    rewrite scan_findings_bind. fold src.
    assert (Hall' : Forall2 (fun f m => m ∈ finditer STMT_RE src
                                        /\ emitted unit m = [f])
                            (finditer STMT_RE src ≫= emitted unit) ms).
    { pose proof (sublist_subseteq _ _ Hsub) as Hin.
      clear Hsub. induction Hall as [|f m fs' ms' Hf Hall IH]; constructor.
      - split; [apply Hin; left | done].
      - apply IH. intros z Hz. apply Hin. by right. }
    eapply (sorted_transfer _ before); [|exact Hall'|].
    + intros f g [a b] [a' b'] [Hm E] [Hm' E'] [Hlt Hle]. simpl in *.
      destruct (Hlines a b f Hm E) as (H1 & H2 & Hab & _).
      destruct (Hlines a' b' g Hm' E') as (H1' & _).
      pose proof (count_le_take NL src a a' ltac:(lia)).
      pose proof (count_le_take NL src b a' Hle).
      eexists _, _, _. split; [exact H1|]. split; [exact H2|].
      split; [exact H1'|]. lia.
    + eapply sublist_sorted; [done | apply finditer_sorted].
Qed.

(** X6. The ending line of a finding is its starting line plus the number
    of lines its statement spans (the newlines inside the matched
    statement, plus 1): the lines of the snippet are exactly the lines of
    the statement. *)
Theorem X6_ending_line (unit : Unit) (fs : list Finding) (f : Finding) :
  findings (scan_unit unit) = Some fs -> f ∈ fs ->
  let src := or_empty (code unit) in
  exists a b sl,
    (a, b) ∈ finditer STMT_RE src /\ emitted unit (a, b) = [f]
    /\ starting_line f = Some sl
    /\ ending_line f = Some (sl + Z.of_nat (count NL (slice src a b)) + 1)%Z
    /\ count NL (get_line_snippet src a b) = count NL (slice src a b).
Proof.
  intros Hfs Hf src.
  destruct (scan_unit_finding _ _ _ Hfs Hf) as (a & b & Hm & E & L).
  destruct L as (_ & _ & _ & _ & L1 & L2 & _). fold src in L1, L2.
  destruct (finditer_bounds _ _ _ _ Hm) as [Hab Hb].
  destruct (get_line_snippet_around src a b Hab Hb) as (x & y & Hs & Hx & Hy & _).
  assert (count NL (get_line_snippet src a b) = count NL (slice src a b)) as Hc.
  { rewrite Hs, !count_app, (count_none _ _ Hx), (count_none _ _ Hy). lia. }
  eexists a, b, _. split; [done|]. split; [done|]. split; [exact L1|].
  split; [|done]. rewrite L2, Hc. f_equal. lia.
Qed.

Lemma X6_witness :
  ending_line <$> scan_findings u_two_lines = [Some 4%Z].
Proof.
  destruct (scan_findings u_two_lines) as [|f [|g l]] eqn:E;
    try (vm_compute in E; discriminate E).
  destruct (X6_ending_line u_two_lines [f] f) as (a & b & sl & Hm & Hem & H1 & H2 & _).
  - by rewrite scan_unit_scan_findings, E.
  - left.
  - vm_compute in Hm. apply list_elem_of_singleton in Hm. injection Hm as -> ->.
    cbn [fmap list_fmap]. rewrite H2. f_equal. f_equal.
    vm_compute in E. injection E as <-. vm_compute in H1. injection H1 as <-.
    vm_compute. reflexivity.
Defined.

Section SnippetParts.

(** The text cut at the line of the span: what is before the line, the
    line up to the span, the span, the line after the span, and what is
    after the line. *)
Lemma get_line_snippet_parts (text : str) (a b : nat) :
  a <= b -> b <= length text ->
  exists pre x y post,
    text = pre ++ x ++ slice text a b ++ y ++ post
    /\ length (pre ++ x) = a
    /\ get_line_snippet text a b = x ++ slice text a b ++ y
    /\ (NL ∉ x) /\ (NL ∉ y)
    /\ (pre = [] \/ last pre = Some NL)
    /\ (post = [] \/ head post = Some NL).
Proof.
  intros Hab Hb.
  destruct (get_line_snippet_spec text a b Hab Hb)
    as (pre & post & E & H1 & H2 & H3 & H4 & H5 & H6).
  set (snip := get_line_snippet text a b) in *.
  assert (snip = slice text (length pre) (length pre + length snip)) as Hs.
  { rewrite E at 1. by rewrite slice_mid. }
  assert (snip = slice text (length pre) a ++ slice text a b
                 ++ slice text b (length pre + length snip)) as Hcut.
  { rewrite Hs at 1. rewrite (slice_cat _ _ a) by lia.
    by rewrite (slice_cat _ a b) by lia. }
  exists pre, (slice text (length pre) a),
         (slice text b (length pre + length snip)), post.
  split_and!; try done.
  - rewrite E at 1. rewrite Hcut at 1. by rewrite <- !app_assoc.
  - rewrite length_app, length_slice by lia. lia.
Qed.

End SnippetParts.

(** X7. [get_line_snippet] cuts the text at the line of the span: the
    text is what is before the line, the line up to the span, the span,
    the line after the span, and what is after the line; the snippet is
    the three middle parts.  The two line parts hold no newline, what is
    before the line is empty or ends with a newline, and what is after it
    is empty or starts with one.  When the span holds no newline the
    snippet is one line, and escaping its newlines leaves it as it is. *)
Theorem X7_snippet_around (text : str) (a b : nat) :
  a <= b -> b <= length text ->
  exists pre x y post,
    text = pre ++ x ++ slice text a b ++ y ++ post
    /\ length (pre ++ x) = a
    /\ get_line_snippet text a b = x ++ slice text a b ++ y
    /\ (NL ∉ x) /\ (NL ∉ y)
    /\ (pre = [] \/ last pre = Some NL)
    /\ (post = [] \/ head post = Some NL)
    /\ ((NL ∉ slice text a b) ->
        (NL ∉ get_line_snippet text a b)
        /\ replace NL [BACKSLASH; LETTER_N] (get_line_snippet text a b)
           = get_line_snippet text a b).
Proof.
  intros Hab Hb.
  destruct (get_line_snippet_parts text a b Hab Hb)
    as (pre & x & y & post & E & Hlen & Hs & Hx & Hy & Hpre & Hpost).
  exists pre, x, y, post. split_and!; try done. intros Hm.
  assert (NL ∉ get_line_snippet text a b) as Hno.
  { rewrite Hs, !elem_of_app. tauto. }
  split; [done | by apply replace_none].
Qed.

Lemma X7_witness :
  get_line_snippet (lit "  a. OPEN DATASET f. b.") 5 20
  = lit "  a. " ++ lit "OPEN DATASET f." ++ lit " b.".
Proof.
  destruct (X7_snippet_around (lit "  a. OPEN DATASET f. b.") 5 20)
    as (pre & x & y & post & _ & _ & _ & _ & _ & _ & _ & H).
  - lia.
  - vm_compute. lia.
  - destruct H as [_ H]; [compute_done|]. rewrite <- H. vm_compute. reflexivity.
Defined.

(** X8. Escaping lengthens a snippet by one character per newline, and
    it cannot be undone: a newline and the two characters backslash, n
    give the same escaped text. *)
Theorem X8_escape (x y : str) :
  length (replace NL [BACKSLASH; LETTER_N] x) = length x + count NL x
  /\ replace NL [BACKSLASH; LETTER_N] (x ++ [NL] ++ y)
     = replace NL [BACKSLASH; LETTER_N] (x ++ [BACKSLASH; LETTER_N] ++ y).
Proof.
  split.
  - pose proof (replace_length NL [BACKSLASH; LETTER_N] x). simpl in *. lia.
  - by rewrite !replace_app.
Qed.

(** X9. On a text without a newline [get_line_snippet] returns the whole
    text, whatever the offsets, also out of range; on the empty text it
    returns the empty text. *)
Theorem X9_snippet_no_newline (text : str) (a b : nat) :
  NL ∉ text -> get_line_snippet text a b = text.
Proof.
  intros Hno. unfold get_line_snippet, rfind, find.
  destruct (find_last_spec NL (slice text 0 a) 0 None)
    as [[-> _]|(k & _ & Hk & _)].
  - destruct (find_first NL (drop b text) b) as [j|] eqn:F.
    + apply find_first_Some in F as (k & _ & Hk & _).
      apply list_elem_of_lookup_2 in Hk. exfalso. apply Hno.
      eapply elem_of_sublist; [done | apply sublist_drop].
    + unfold slice. by rewrite drop_0, Nat.sub_0_r, take_ge.
  - apply list_elem_of_lookup_2 in Hk. exfalso. apply Hno.
    unfold slice in Hk. rewrite drop_0 in Hk.
    eapply elem_of_sublist; [done | apply sublist_take].
Qed.

Lemma X9_witness :
  get_line_snippet (lit "OPEN DATASET f.") 40 2 = lit "OPEN DATASET f."
  /\ get_line_snippet [] 0 0 = [].
Proof.
  split; apply X9_snippet_no_newline; compute_done.
Defined.

(** ** Base offset, verdicts and batches *)

Section Composition.

Implicit Types (unit : Unit) (f : Finding).

Lemma bind_fmap_ext {A B} (h : B -> B) (g g' : A -> list B) (l : list A) :
  (forall m, g' m = h <$> g m) -> l ≫= g' = h <$> (l ≫= g).
Proof.
  intros Hg. induction l as [|m l IH]; [done|].
  cbn. by rewrite fmap_app, Hg, <- IH.
Qed.

Lemma emitted_shift unit (n d : Z) m :
  emitted (with_start_line (Some (n + d)%Z) unit) m
  = shift_lines d <$> emitted (with_start_line (Some n) unit) m.
Proof.
  unfold emitted, scan_stmt. cbn [code start_line with_start_line].
  rewrite !or_zero_eq.
  set (X := Z.of_nat (count NL (take (fst m) (or_empty (code unit))) + 1)).
  set (Y := Z.of_nat (count NL (get_line_snippet (or_empty (code unit))
                                  (fst m) (snd m)) + 1)).
  replace (n + d + X)%Z with (n + X + d)%Z by lia.
  replace (n + X + d + Y)%Z with (n + X + Y + d)%Z by lia.
  destruct (negb (search MODE_RE _)); [done|].
  by destruct (search TEXT_MODE_RE _ && negb (search ENCODING_RE _))%bool.
Qed.

Lemma text_mode_has_mode (s : str) :
  search TEXT_MODE_RE s = true -> search MODE_RE s = true.
Proof. rewrite search_TEXT_MODE, search_MODE. by left. Qed.

Lemma filter_fmap_idem {A} (p : A -> bool) (g : A -> A) (l : list A) :
  (forall x, g (g x) = g x) ->
  List.filter p (g <$> List.filter p (g <$> l)) = List.filter p (g <$> l).
Proof.
  intros Hg. induction l as [|x l IH]; [done|].
  cbn [fmap list_fmap List.filter]. destruct (p (g x)) eqn:E; [|done].
  cbn [fmap list_fmap List.filter]. by rewrite Hg, E, IH.
Qed.

Lemma scan_rule111_array_filter (units : list Unit) :
  scan_rule111_array units
  = List.filter (fun r => truthy (findings r)) (scan_unit <$> units).
Proof. unfold scan_rule111_array. by rewrite fold_batch. Qed.

End Composition.

(** X10. The base offset only moves the lines: scanning the same unit
    with [start_line] raised by [d] gives the same findings with
    [starting_line] and [ending_line] raised by [d] and all else equal;
    an absent [start_line] scans as 0. *)
Theorem X10_base_offset (unit : Unit) (n d : Z) :
  scan_findings (with_start_line (Some (n + d)%Z) unit)
  = shift_lines d <$> scan_findings (with_start_line (Some n) unit)
  /\ scan_findings (with_start_line None unit)
     = scan_findings (with_start_line (Some 0%Z) unit).
Proof.
  split; [|reflexivity].
  rewrite !scan_findings_bind. cbn [code with_start_line].
  apply bind_fmap_ext. intros m. apply emitted_shift.
Qed.

(** X11. No finding without its defect: a finding of kind
    [OpenDatasetNoMode] comes from a located statement with no mode
    clause, and a finding of kind [OpenDatasetTextNoEncoding] from a
    located statement with a text mode clause and no encoding clause. *)
Theorem X11_no_false_finding (unit : Unit) (fs : list Finding) (f : Finding) :
  findings (scan_unit unit) = Some fs -> f ∈ fs ->
  let src := or_empty (code unit) in
  exists a b,
    (a, b) ∈ finditer STMT_RE src /\ emitted unit (a, b) = [f]
    /\ (issues_type f = Some (lit "OpenDatasetNoMode") ->
        ~ occurs (mode_phrase (lit "TEXT")) (slice src a b)
        /\ ~ occurs (mode_phrase (lit "BINARY")) (slice src a b))
    /\ (issues_type f = Some (lit "OpenDatasetTextNoEncoding") ->
        occurs (mode_phrase (lit "TEXT")) (slice src a b)
        /\ ~ occurs encoding_phrase (slice src a b)).
Proof.
  intros Hfs Hf src.
  destruct (scan_unit_finding _ _ _ Hfs Hf) as (a & b & Hm & E & _).
  exists a, b. split; [done|]. split; [done|]. fold src in E.
  destruct (search MODE_RE (slice src a b)) eqn:H1.
  - destruct (search TEXT_MODE_RE (slice src a b)) eqn:H2.
    + destruct (search ENCODING_RE (slice src a b)) eqn:H3.
      * rewrite emitted_nothing in E by auto. done.
      * destruct (emitted_text_no_encoding _ _ _ H1 H2 H3)
          as (g & E' & K & _). rewrite E' in E. injection E as ->.
        split; [intros K'; rewrite K in K'; discriminate K'|].
        intros _. rewrite <- search_TEXT_MODE, <- search_ENCODING.
        split; [done | congruence].
    + rewrite emitted_nothing in E by auto. done.
  - destruct (emitted_no_mode _ _ _ H1) as (g & E' & K & _).
    rewrite E' in E. injection E as ->.
    split; [|intros K'; rewrite K in K'; discriminate K'].
    intros _. assert (~ (occurs (mode_phrase (lit "TEXT")) (slice src a b)
                        \/ occurs (mode_phrase (lit "BINARY")) (slice src a b))).
    { rewrite <- search_MODE. congruence. }
    tauto.
Qed.

Lemma X11_witness :
  exists a b,
    (a, b) ∈ finditer STMT_RE (or_empty (code u_no_mode))
    /\ ~ occurs (mode_phrase (lit "TEXT")) (slice (or_empty (code u_no_mode)) a b).
Proof.
  destruct (scan_findings u_no_mode) as [|f [|g l]] eqn:E;
    try (vm_compute in E; discriminate E).
  destruct (X11_no_false_finding u_no_mode [f] f) as (a & b & Hm & _ & H & _).
  - by rewrite scan_unit_scan_findings, E.
  - left.
  - exists a, b. split; [exact Hm|]. apply H.
    vm_compute in E. injection E as <-. reflexivity.
Defined.

(** X12. The batch operation treats its units one by one: the result for
    a list put together from two lists is the two results put together,
    every unit of the result has at least one finding and is the scan of
    a unit given, and running the batch on its own result gives that
    result again. *)
Theorem X12_batch_composes (l1 l2 : list Unit) :
  scan_rule111_array (l1 ++ l2)
  = scan_rule111_array l1 ++ scan_rule111_array l2
  /\ scan_rule111_array (scan_rule111_array l1) = scan_rule111_array l1
  /\ length (scan_rule111_array l1) <= length l1
  /\ Forall (fun r => (exists u, u ∈ l1 /\ r = scan_unit u)
                      /\ exists f fs, findings r = Some (f :: fs))
            (scan_rule111_array l1).
Proof.
  rewrite !scan_rule111_array_filter. split_and!.
  - by rewrite fmap_app, List.filter_app.
  - apply filter_fmap_idem, scan_unit_idem.
  - etrans; [apply List.filter_length_le|]. by rewrite length_fmap.
  - apply Forall_forall. intros r Hr.
    apply list_elem_of_In, List.filter_In in Hr as [Hr Ht].
    apply list_elem_of_In, list_elem_of_fmap in Hr as (u & -> & Hu).
    split; [by exists u|].
    destruct (findings (scan_unit u)) as [[|f fs]|]; try done. by exists f, fs.
Qed.

(** ** Letter case *)

Section LetterCase.

Implicit Types (r : regex) (prev : option char) (s : str) (k : cont).

Lemma lower_lower c : lower (lower c) = lower c.
Proof.
  apply N.eqb_eq. apply (lower_all (fun y x => N.eqb (lower y) y)).
  - intros x Hx. by apply N.eqb_eq.
  - vm_compute. reflexivity.
Qed.

Lemma is_space_lower c : is_space (lower c) = is_space c.
Proof.
  apply Bool.eqb_prop.
  apply (lower_all (fun y x => Bool.eqb (is_space y) (is_space x))).
  - intros x _. apply Bool.eqb_reflx.
  - vm_compute. reflexivity.
Qed.

Lemma not_dot_lower c : not_dot (lower c) = not_dot c.
Proof.
  apply Bool.eqb_prop.
  apply (lower_all (fun y x => Bool.eqb (not_dot y) (not_dot x))).
  - intros x _. apply Bool.eqb_reflx.
  - vm_compute. reflexivity.
Qed.

Lemma eqb_NL_lower c : N.eqb (lower c) NL = N.eqb c NL.
Proof.
  apply Bool.eqb_prop.
  apply (lower_all (fun y x => Bool.eqb (N.eqb y NL) (N.eqb x NL))).
  - intros x _. apply Bool.eqb_reflx.
  - vm_compute. reflexivity.
Qed.

Lemma eq_ci_lower a c : eq_ci a (lower c) = eq_ci a c.
Proof. unfold eq_ci. by rewrite lower_lower. Qed.

Lemma at_boundary_lower prev s :
  at_boundary (lower <$> prev) (lower <$> s) = at_boundary prev s.
Proof.
  unfold at_boundary. rewrite word_opt_lower. f_equal.
  destruct s as [|c s]; [done|]. apply is_word_lower.
Qed.

Lemma run_str_lower l prev s k k' :
  (forall p t, k' (lower <$> p) (lower <$> t) = k p t) ->
  run_str l (lower <$> prev) (lower <$> s) k' = run_str l prev s k.
Proof.
  intros Hk. revert prev s. induction l as [|a l IH]; intros prev s; simpl.
  - apply Hk.
  - destruct s as [|c s]; [done|]. cbn [fmap list_fmap].
    rewrite eq_ci_lower. destruct (eq_ci a c); [|done].
    by rewrite <- (IH (Some c) s).
Qed.

Lemma run_rep_lower p prev s k k' :
  (forall c, p (lower c) = p c) ->
  (forall q t, k' (lower <$> q) (lower <$> t) = k q t) ->
  run_rep p (lower <$> prev) (lower <$> s) k' = run_rep p prev s k.
Proof.
  intros Hp Hk. revert prev. induction s as [|c s IH]; intros prev.
  - apply (Hk prev []).
  - cbn [fmap list_fmap run_rep]. rewrite Hp.
    pose proof (Hk prev (c :: s)) as Hk'. cbn [fmap list_fmap] in Hk'.
    rewrite Hk'. destruct (p c); [|done].
    by rewrite <- (IH (Some c)).
Qed.

(** On a case-blind pattern the matcher does the same on a text and on
    the text with every character replaced by [lower]. *)
Lemma run_lower r prev s k k' :
  case_blind r ->
  (forall p t, k' (lower <$> p) (lower <$> t) = k p t) ->
  run r (lower <$> prev) (lower <$> s) k' = run r prev s k.
Proof.
  revert prev s k k'.
  induction r as [|l|p|p|r1 IH1 r2 IH2|r1 IH1 r2 IH2];
    intros prev s k k' Hr Hk; cbn [run].
  - rewrite at_boundary_lower, Hk. done.
  - by apply run_str_lower.
  - by apply run_rep_lower.
  - destruct s as [|c s]; [done|]. cbn [fmap list_fmap]. rewrite Hr.
    destruct (p c); [|done].
    by rewrite <- (run_rep_lower p (Some c) s k k').
  - destruct Hr as [Hr1 Hr2]. apply IH1; [done|].
    intros p t. by apply IH2.
  - destruct Hr as [Hr1 Hr2].
    by rewrite (IH1 prev s k k'), (IH2 prev s k k').
Qed.

Lemma match_at_lower r prev s :
  case_blind r ->
  match_at r (lower <$> prev) (lower <$> s) = match_at r prev s.
Proof. intros Hr. by apply run_lower. Qed.

Lemma search_from_lower r prev s :
  case_blind r ->
  search_from r (lower <$> prev) (lower <$> s) = search_from r prev s.
Proof.
  intros Hr. revert prev. induction s as [|c s IH]; intros prev.
  - cbn [fmap list_fmap search_from]. change [] with (lower <$> @nil char).
    by rewrite match_at_lower.
  - cbn [fmap list_fmap search_from].
    change (lower c :: (lower <$> s)) with (lower <$> (c :: s)).
    rewrite match_at_lower by done. by rewrite <- (IH (Some c)).
Qed.

Lemma search_lower r s :
  case_blind r -> search r (lower <$> s) = search r s.
Proof. intros Hr. by apply (search_from_lower r None). Qed.

Lemma finditer_from_lower r prev s pos skip :
  case_blind r ->
  finditer_from r (lower <$> prev) (lower <$> s) pos skip
  = finditer_from r prev s pos skip.
Proof.
  intros Hr. revert prev pos skip.
  induction s as [|c s IH]; intros prev pos skip.
  - destruct skip; [|done]. cbn [fmap list_fmap finditer_from].
    change [] with (lower <$> @nil char) at 1. by rewrite match_at_lower.
  - destruct skip as [|skip]; cbn [fmap list_fmap finditer_from].
    + change (lower c :: (lower <$> s)) with (lower <$> (c :: s)).
      rewrite match_at_lower by done.
      destruct (match_at r prev (c :: s)); by rewrite <- (IH (Some c)).
    + by rewrite <- (IH (Some c)).
Qed.

Lemma case_blind_patterns :
  case_blind STMT_RE /\ case_blind MODE_RE
  /\ case_blind TEXT_MODE_RE /\ case_blind ENCODING_RE.
Proof.
  assert (forall c, non_space (lower c) = non_space c) as Hns.
  { intros c. unfold non_space. by rewrite is_space_lower. }
  pose proof is_space_lower. pose proof not_dot_lower.
  unfold STMT_RE, MODE_RE, TEXT_MODE_RE, ENCODING_RE. cbn [case_blind].
  by split_and!.
Qed.

Lemma slice_lower s a b : slice (lower <$> s) a b = lower <$> slice s a b.
Proof. unfold slice. by rewrite fmap_take, fmap_drop. Qed.

Lemma count_NL_lower s : count NL (lower <$> s) = count NL s.
Proof.
  induction s as [|c s IH]; [done|]. cbn [fmap list_fmap count].
  by rewrite eqb_NL_lower, IH.
Qed.

Lemma find_first_lower s i :
  find_first NL (lower <$> s) i = find_first NL s i.
Proof.
  revert i. induction s as [|c s IH]; intros i; [done|].
  cbn [fmap list_fmap find_first]. by rewrite eqb_NL_lower, IH.
Qed.

Lemma find_last_lower s i seen :
  find_last NL (lower <$> s) i seen = find_last NL s i seen.
Proof.
  revert i seen. induction s as [|c s IH]; intros i seen; [done|].
  cbn [fmap list_fmap find_last]. by rewrite eqb_NL_lower, IH.
Qed.

Lemma get_line_snippet_lower s a b :
  get_line_snippet (lower <$> s) a b = lower <$> get_line_snippet s a b.
Proof.
  unfold get_line_snippet, rfind, find.
  by rewrite !slice_lower, find_last_lower, <- fmap_drop, find_first_lower,
    length_fmap.
Qed.

Lemma replace_NL_lower s :
  replace NL [BACKSLASH; LETTER_N] (lower <$> s)
  = lower <$> replace NL [BACKSLASH; LETTER_N] s.
Proof.
  induction s as [|c s IH]; [done|]. cbn [fmap list_fmap replace].
  rewrite eqb_NL_lower, IH, fmap_app. by destruct (N.eqb c NL).
Qed.

Lemma or_empty_lower (s : str) :
  or_empty (Some (lower <$> s)) = lower <$> or_empty (Some s).
Proof. by destruct s. Qed.

Lemma emitted_lower (unit : Unit) (src : str) m :
  emitted (with_code (Some (lower <$> src)) unit) m
  = lower_snippet <$> emitted (with_code (Some src) unit) m.
Proof.
  destruct case_blind_patterns as (_ & H1 & H2 & H3).
  unfold emitted, scan_stmt. cbn [code start_line with_code].
  rewrite or_empty_lower, !slice_lower, !search_lower by done.
  rewrite <- fmap_take, count_NL_lower, get_line_snippet_lower,
    count_NL_lower, replace_NL_lower.
  destruct (negb (search MODE_RE _)); [done|].
  by destruct (search TEXT_MODE_RE _ && negb (search ENCODING_RE _))%bool.
Qed.

Lemma scan_findings_lower (unit : Unit) (src : str) :
  scan_findings (with_code (Some (lower <$> src)) unit)
  = lower_snippet <$> scan_findings (with_code (Some src) unit).
Proof.
  destruct case_blind_patterns as (H0 & _).
  rewrite !scan_findings_bind. cbn [code with_code].
  rewrite or_empty_lower. unfold finditer.
  rewrite (finditer_from_lower STMT_RE None) by done.
  apply bind_fmap_ext. intros m. apply emitted_lower.
Qed.

End LetterCase.

(** X13. Detection does not look at letter case: scanning the code with
    every character replaced by the one IGNORECASE compares it as (a..z
    for A..Z, i for U+0130 and U+0131, s for U+017F, k for U+212A, any
    other character as it is) gives the same findings, with the snippets
    changed likewise; so two codes that are equal up to these
    replacements give findings with the same lines and kinds, one for
    one.  (This is not [str.lower], which turns U+0130 into two
    characters.) *)
Theorem X13_letter_case (unit : Unit) (src src' : str) :
  scan_findings (with_code (Some (lower <$> src)) unit)
  = lower_snippet <$> scan_findings (with_code (Some src) unit)
  /\ (ci src src' ->
      outline <$> scan_findings (with_code (Some src) unit)
      = outline <$> scan_findings (with_code (Some src') unit)).
Proof.
  split; [apply scan_findings_lower|]. intros H.
  assert (forall x : list Finding, outline <$> x = outline <$> (lower_snippet <$> x)) as Ho.
  { intros x. rewrite <- list_fmap_compose. done. }
  rewrite (Ho (scan_findings (with_code (Some src) unit))),
          (Ho (scan_findings (with_code (Some src') unit))).
  rewrite <- !scan_findings_lower. unfold ci in H. by rewrite H.
Qed.

Lemma X13_witness :
  outline <$> scan_findings (with_code (Some text_plain) u_empty)
  = outline <$> scan_findings (with_code (Some text_folded) u_empty).
Proof.
  destruct (X13_letter_case u_empty text_plain text_folded) as [_ H].
  apply H. vm_compute. reflexivity.
Defined.

(** ** Text after a period *)

Section Chunks.

Implicit Types (r : regex) (prev : option char) (s t w : str).

Lemma statement_prev prev prev' w :
  word_opt prev = word_opt prev' -> statement prev w -> statement prev' w.
Proof.
  intros E (ph & body & -> & (o & ws & d & ? & ? & ? & ? & Hp & ?) & ?).
  exists ph, body. split; [done|]. split; [|done].
  exists o, ws, d. rewrite <- E. by split_and!.
Qed.

(** The match at a position is decided by which prefixes of the rest are
    statements. *)
Lemma match_at_STMT_eq prev s prev' s' :
  (forall n, n <= length s /\ statement prev (take n s) ->
             n <= length s' /\ statement prev' (take n s')) ->
  (forall n, n <= length s' /\ statement prev' (take n s') ->
             n <= length s /\ statement prev (take n s)) ->
  match_at STMT_RE prev s = match_at STMT_RE prev' s'.
Proof.
  assert (Hfound : forall p u n, n <= length u -> statement p (take n u) ->
            match_at STMT_RE p u = Some n).
  { intros p u n Hn Hu. rewrite <- (take_drop n u) at 1.
    rewrite (match_at_STMT _ _ _ Hu). by rewrite length_take_le. }
  intros H1 H2.
  destruct (match_at STMT_RE prev s) as [n|] eqn:M.
  - apply match_at_STMT_inv in M as (_ & Hn & Hs & _).
    destruct (H1 n (conj Hn Hs)) as [Hn' Hs']. symmetry. by apply Hfound.
  - destruct (match_at STMT_RE prev' s') as [m|] eqn:M'; [|done].
    apply match_at_STMT_inv in M' as (_ & Hm & Hs & _).
    destruct (H2 m (conj Hm Hs)) as [Hm' Hs'].
    rewrite (Hfound _ _ _ Hm' Hs') in M. done.
Qed.

Lemma statement_within prev t s n :
  DOT ∈ t -> n <= length (t ++ s) -> statement prev (take n (t ++ s)) ->
  n <= length t.
Proof.
  intros Ht Hn Hs. destruct (decide (n <= length t)) as [|Hgt]; [done|].
  exfalso. apply statement_last_dot in Hs as (ph & body & E & Hno & _).
  apply Hno. rewrite app_assoc in E.
  assert (length (ph ++ body) + 1 = n) as Hlen.
  { apply (f_equal length) in E.
    rewrite length_take_le, length_app in E by done. simpl in E. lia. }
  assert (t = take (length t) (ph ++ body)) as Et.
  { rewrite <- (take_app_le _ [DOT]) by lia. rewrite <- E.
    rewrite take_take, Nat.min_l by lia. by rewrite take_app_length. }
  rewrite Et in Ht.
  eapply elem_of_sublist; [done | apply sublist_take].
Qed.

(** Up to its first period, what follows does not matter. *)
Lemma match_at_STMT_prefix prev t s :
  DOT ∈ t -> match_at STMT_RE prev (t ++ s) = match_at STMT_RE prev t.
Proof.
  intros Ht. apply match_at_STMT_eq.
  - intros n [Hn Hs]. pose proof (statement_within _ _ _ _ Ht Hn Hs) as Hle.
    split; [done|]. by rewrite take_app_le in Hs.
  - intros n [Hn Hs]. rewrite length_app. split; [lia|].
    by rewrite take_app_le.
Qed.

Lemma match_at_STMT_prev prev prev' s :
  word_opt prev = word_opt prev' ->
  match_at STMT_RE prev s = match_at STMT_RE prev' s.
Proof.
  intros E. apply match_at_STMT_eq; intros n [Hn Hs];
    (split; [done|]); by eapply statement_prev.
Qed.

Lemma match_at_STMT_nil prev : match_at STMT_RE prev [] = None.
Proof.
  destruct (match_at STMT_RE prev []) as [n|] eqn:M; [|done].
  apply match_at_STMT_inv in M. simpl in M. lia.
Qed.

Lemma finditer_from_shift r prev s pos skip :
  finditer_from r prev s pos skip
  = shift_span pos <$> finditer_from r prev s 0 skip.
Proof.
  revert prev pos skip. induction s as [|c s IH]; intros prev pos skip.
  - destruct skip; [|done]. cbn [finditer_from].
    destruct (match_at r prev []) as [n|]; [|done].
    cbn. unfold shift_span. cbn. by rewrite (Nat.add_comm pos n).
  - assert (Htail : forall k,
      finditer_from r (Some c) s (S pos) k
      = shift_span pos <$> finditer_from r (Some c) s 1 k).
    { intros k. rewrite (IH _ (S pos)), (IH _ 1), <- list_fmap_compose.
      apply list_fmap_ext. intros _ [a b] _. unfold shift_span. cbn.
      f_equal; lia. }
    destruct skip as [|skip]; cbn [finditer_from]; [|apply Htail].
    destruct (match_at r prev (c :: s)) as [n|]; [|apply Htail].
    rewrite fmap_cons, Htail. unfold shift_span at 1. cbn.
    by rewrite (Nat.add_comm pos n).
Qed.

Lemma finditer_from_STMT_prev prev prev' s pos :
  word_opt prev = word_opt prev' ->
  finditer_from STMT_RE prev s pos 0 = finditer_from STMT_RE prev' s pos 0.
Proof.
  intros E. destruct s as [|c s]; cbn [finditer_from];
    by rewrite (match_at_STMT_prev _ _ _ E).
Qed.

Lemma finditer_from_STMT_app t s prev pos skip :
  last_of prev t = Some DOT -> skip <= length t ->
  finditer_from STMT_RE prev (t ++ s) pos skip
  = finditer_from STMT_RE prev t pos skip
    ++ finditer_from STMT_RE (Some DOT) s (pos + length t) 0.
Proof.
  revert prev pos skip. induction t as [|c t IH]; intros prev pos skip Hlast Hs.
  - simpl in Hs. assert (skip = 0) as -> by lia.
    rewrite last_of_nil in Hlast. subst prev.
    cbn [app length finditer_from]. rewrite match_at_STMT_nil, Nat.add_0_r.
    done.
  - rewrite last_of_cons in Hlast.
    assert (DOT ∈ c :: t) as Hdot.
    { unfold last_of in Hlast. destruct (last t) as [x|] eqn:Hl.
      - injection Hlast as ->. right. by apply last_Some_elem_of.
      - injection Hlast as ->. left. }
    assert (Htail : forall k, k <= length t ->
      finditer_from STMT_RE (Some c) (t ++ s) (S pos) k
      = finditer_from STMT_RE (Some c) t (S pos) k
        ++ finditer_from STMT_RE (Some DOT) s (pos + length (c :: t)) 0).
    { intros k Hk. rewrite IH by done. do 2 f_equal. simpl. lia. }
    simpl in Hs. destruct skip as [|skip]; cbn [app finditer_from];
      [|apply Htail; lia].
    change (c :: t ++ s) with ((c :: t) ++ s).
    rewrite (match_at_STMT_prefix _ _ _ Hdot).
    destruct (match_at STMT_RE prev (c :: t)) as [n|] eqn:M.
    + apply match_at_STMT_inv in M as (_ & Hn & _). simpl in Hn.
      rewrite Htail by lia. done.
    + apply Htail. lia.
Qed.

Lemma emitted_kind_slice (u u' : Unit) (a b a' b' : nat) :
  slice (or_empty (code u)) a b = slice (or_empty (code u')) a' b' ->
  issues_type <$> emitted u (a, b) = issues_type <$> emitted u' (a', b').
Proof.
  intros E. unfold emitted, scan_stmt. cbn [fst snd]. rewrite E.
  destruct (negb (search MODE_RE _)); [done|].
  by destruct (search TEXT_MODE_RE _ && negb (search ENCODING_RE _))%bool.
Qed.

Lemma or_empty_Some (s : str) : or_empty (Some s) = s.
Proof. by destruct s. Qed.

Lemma fmap_bind_list {A B C} (h : B -> C) (g : A -> list B) (l : list A) :
  h <$> (l ≫= g) = l ≫= (fun m => h <$> g m).
Proof.
  induction l as [|m l IH]; [done|]. cbn. by rewrite fmap_app, IH.
Qed.

Lemma bind_ext_in {A B} (g g' : A -> list B) (l : list A) :
  (forall m, m ∈ l -> g m = g' m) -> l ≫= g = l ≫= g'.
Proof.
  intros H. induction l as [|m l IH]; [done|]. cbn.
  rewrite (H m) by left. f_equal. apply IH. intros z Hz. apply H. by right.
Qed.

Lemma slice_app_l (s1 s2 : str) a b :
  b <= length s1 -> slice (s1 ++ s2) a b = slice s1 a b.
Proof.
  intros Hb. unfold slice. rewrite drop_app.
  rewrite take_app_le by (rewrite length_drop; lia). done.
Qed.

Lemma slice_app_r (s1 s2 : str) a b :
  slice (s1 ++ s2) (a + length s1) (b + length s1) = slice s2 a b.
Proof.
  unfold slice. rewrite drop_app, drop_ge by lia.
  replace (a + length s1 - length s1) with a by lia.
  replace (b + length s1 - (a + length s1)) with (b - a) by lia. done.
Qed.

End Chunks.

(** X14. A statement never runs past a period, so the text after a
    period is scanned on its own: when [s1] ends with a period, the spans
    of [s1 ++ s2] are the spans of [s1] followed by the spans of [s2]
    moved right by the length of [s1], and the kinds of the findings of
    [s1 ++ s2] are those of [s1] followed by those of [s2]. *)
Theorem X14_after_period (unit : Unit) (s1 s2 : str) :
  last s1 = Some DOT ->
  finditer STMT_RE (s1 ++ s2)
  = finditer STMT_RE s1 ++ (shift_span (length s1) <$> finditer STMT_RE s2)
  /\ issues_type <$> scan_findings (with_code (Some (s1 ++ s2)) unit)
     = (issues_type <$> scan_findings (with_code (Some s1) unit))
       ++ (issues_type <$> scan_findings (with_code (Some s2) unit)).
Proof.
  intros Hlast.
  assert (Hspans : finditer STMT_RE (s1 ++ s2)
    = finditer STMT_RE s1 ++ (shift_span (length s1) <$> finditer STMT_RE s2)).
  { unfold finditer. rewrite finditer_from_STMT_app;
      [|by rewrite last_of_None|lia].
    f_equal. cbn [Nat.add].
    rewrite (finditer_from_STMT_prev (Some DOT) None) by done.
    apply finditer_from_shift. }
  split; [done|].
  rewrite !scan_findings_bind, !fmap_bind_list. cbn [code with_code].
  rewrite !or_empty_Some, Hspans, bind_app, list_fmap_bind. f_equal.
  - apply bind_ext_in. intros [a b] Hm. apply emitted_kind_slice.
    cbn [code with_code]. rewrite !or_empty_Some.
    apply slice_app_l. by destruct (finditer_bounds _ _ _ _ Hm).
  - apply bind_ext_in. intros [a b] Hm.
    apply (emitted_kind_slice _ _ (a + length s1) (b + length s1) a b).
    cbn [code with_code]. rewrite !or_empty_Some. apply slice_app_r.
Qed.

Lemma X14_witness :
  finditer STMT_RE (lit "OPEN DATASET a." ++ lit " OPEN DATASET b. x")
  = [(0, 15); (16, 31)].
Proof.
  destruct (X14_after_period u_empty (lit "OPEN DATASET a.")
              (lit " OPEN DATASET b. x")) as [H _].
  - reflexivity.
  - rewrite H. vm_compute. reflexivity.
Defined.

(** ** Exact outcomes *)

Section Exact.

Implicit Types (prev : option char) (s w post : str).

Lemma finditer_from_STMT_no_dot prev s pos skip :
  DOT ∉ drop skip s -> finditer_from STMT_RE prev s pos skip = [].
Proof.
  intros H. pose proof (finditer_STMT_dots prev s pos skip) as Hle.
  rewrite (count_none _ _ H) in Hle.
  destruct (finditer_from STMT_RE prev s pos skip); [done|]. simpl in Hle. lia.
Qed.

Lemma encoding_before_dot (x e ws : str) :
  ci (lit "ENCODING") e -> spaces ws -> word_opt (last x) = false ->
  search ENCODING_RE (x ++ e ++ ws ++ [DOT]) = true.
Proof.
  intros He Hws Hx. apply search_ENCODING.
  exists x, (e ++ ws ++ [DOT]), []. split; [by rewrite app_nil_r|].
  exists e, ws, [DOT]. split_and!; try done. by repeat constructor.
Qed.

End Exact.

(** X15. A text that is one statement followed by text without a period
    has exactly one span, the statement; so the unit gets the finding of
    that statement, if any, and no other. *)
Theorem X15_single_statement (unit : Unit) (w post : str) :
  statement None w -> DOT ∉ post ->
  finditer STMT_RE (w ++ post) = [(0, length w)]
  /\ slice (w ++ post) 0 (length w) = w
  /\ scan_findings (with_code (Some (w ++ post)) unit)
     = emitted (with_code (Some (w ++ post)) unit) (0, length w).
Proof.
  intros Hw Hpost.
  assert (Hspans : finditer STMT_RE (w ++ post) = [(0, length w)]).
  { unfold finditer. pose proof (match_at_STMT None w post Hw) as M.
    pose proof (statement_length _ _ Hw) as Hlen.
    destruct w as [|c w]; [simpl in Hlen; lia|].
    cbn [app finditer_from] in *. rewrite M. cbn [length Nat.add pred].
    f_equal. apply finditer_from_STMT_no_dot. by rewrite drop_app_length. }
  split; [done|]. split.
  - apply (slice_mid [] w post).
  - rewrite scan_findings_bind. cbn [code with_code].
    rewrite or_empty_Some, Hspans. cbn. by rewrite app_nil_r.
Qed.

Lemma X15_witness :
  finditer STMT_RE (lit "open dataset f in binary mode." ++ lit " close dataset f")
  = [(0, 30)].
Proof.
  destruct (X15_single_statement u_empty (lit "open dataset f in binary mode.")
              (lit " close dataset f")) as [H _].
  - exists (lit "open dataset"), (lit " f in binary mode").
    split; [reflexivity|]. split; [|compute_done].
    exists (lit "open"), (lit " "), (lit "dataset").
    split_and!; try reflexivity. split; [done|]. repeat constructor.
  - compute_done.
  - exact H.
Defined.

(** X16. The closing period counts as an encoding token: a located
    statement with a mode clause that ends with the whole word ENCODING,
    white space and the period gets no finding, although no encoding is
    named. *)
Theorem X16_encoding_before_period (unit : Unit) (a b : nat) (x e ws : str) :
  let stmt := slice (or_empty (code unit)) a b in
  stmt = x ++ e ++ ws ++ [DOT] ->
  ci (lit "ENCODING") e -> spaces ws -> word_opt (last x) = false ->
  occurs (mode_phrase (lit "TEXT")) stmt
  \/ occurs (mode_phrase (lit "BINARY")) stmt ->
  search ENCODING_RE stmt = true /\ emitted unit (a, b) = [].
Proof.
  intros stmt E He Hws Hx Hmode.
  assert (search ENCODING_RE stmt = true) as Henc.
  { rewrite E. by apply encoding_before_dot. }
  split; [done|]. apply emitted_nothing; [by apply search_MODE | by right].
Qed.

Lemma X16_witness :
  scan_findings
    (with_code (Some (lit "OPEN DATASET f IN TEXT MODE ENCODING .")) u_empty)
  = [].
Proof.
  destruct (X16_encoding_before_period
              (with_code (Some (lit "OPEN DATASET f IN TEXT MODE ENCODING ."))
                 u_empty)
              0 38 (lit "OPEN DATASET f IN TEXT MODE ") (lit "ENCODING")
              (lit " ")) as [_ H].
  - reflexivity.
  - reflexivity.
  - split; [done|]. repeat constructor.
  - reflexivity.
  - left. apply search_TEXT_MODE. vm_compute. reflexivity.
  - rewrite scan_findings_bind.
    replace (finditer STMT_RE _) with [(0, 38)] by (vm_compute; reflexivity).
    rewrite bind_cons, H. reflexivity.
Defined.

(** ** Characters beyond ASCII *)

(** The long s is taken for S and the em space for white space: the
    statement is located, and the opening phrase occurs in the text. *)
Lemma long_s_located :
  finditer STMT_RE text_long_s = [(0, 15)]
  /\ occurs opening_phrase text_long_s
  /\ issues_type <$> scan_findings (with_code (Some text_long_s) u_empty)
     = [Some (lit "OpenDatasetNoMode")].
Proof.
  split; [vm_compute; reflexivity|]. split; [|vm_compute; reflexivity].
  apply search_OPENING. vm_compute. reflexivity.
Qed.

(** The dotted capital I is taken for I: the statement has a text mode
    clause, and the finding is the one for a missing encoding. *)
Lemma dotted_i_mode :
  occurs (mode_phrase (lit "TEXT")) text_dotted_i
  /\ issues_type <$> scan_findings (with_code (Some text_dotted_i) u_empty)
     = [Some (lit "OpenDatasetTextNoEncoding")].
Proof.
  split; [|vm_compute; reflexivity].
  apply search_TEXT_MODE. vm_compute. reflexivity.
Qed.

(** The dotless i is taken for I: the statement has an encoding clause
    and gets no finding. *)
Lemma dotless_i_encoding :
  occurs encoding_phrase text_dotless_i
  /\ scan_findings (with_code (Some text_dotless_i) u_empty) = [].
Proof.
  split; [|vm_compute; reflexivity].
  apply search_ENCODING. vm_compute. reflexivity.
Qed.
